(** * Synth idea catalogue generator

    A shallow embedding of [scripts/generate_synth_ideas.py].  The script
    walks ten thematic domains in declaration order, assembles one row per id
    of each domain's range from the domain's tables and the [random] module,
    and hands every row to a [csv.writer].

    Python values are modelled as follows: [int] is [Z]; [str] is the UTF-8
    byte string of the text (every string operation the script uses commutes
    with the encoding); a list is a [list]; the [domains] dict, which is only
    ever iterated with [.items()], is an association list in insertion order.
    Operations that can raise do so in the monad. *)

From Stdlib Require Import ZArith QArith Qround List String Ascii Bool Lia.
From Stdlib Require Import DecimalString Permutation Sorted.
From ExtLib Require Import Structures.Monad Structures.MonadExc.
Import ListNotations.
Import MonadNotation.

Local Open Scope list_scope.
Local Open Scope string_scope.
Local Open Scope Z_scope.
Local Open Scope monad_scope.

(** ** Python values the script manipulates *)

Inductive exn : Type :=
| ZeroDivisionError
| IndexError
| ValueError.

(** A cell handed to [csv.writer.writerow]: the script passes ints and strs. *)
Inductive pyval : Type :=
| PInt (z : Z)
| PStr (s : string).

Definition str_of_int (z : Z) : string := NilEmpty.string_of_int (Z.to_int z).

(** [str(v)] *)
Definition str (v : pyval) : string :=
  match v with
  | PInt z => str_of_int z
  | PStr s => s
  end.

(** [len(l)] *)
Definition len {A : Type} (l : list A) : Z := Z.of_nat (List.length l).

(** [range(start, stop)] *)
Definition py_range (start stop : Z) : list Z :=
  List.map (fun k => start + Z.of_nat k) (List.seq 0 (Z.to_nat (stop - start))).

Fixpoint enumerate_from {A : Type} (n : Z) (l : list A) : list (Z * A) :=
  match l with
  | [] => []
  | x :: l' => (n, x) :: enumerate_from (n + 1) l'
  end.

(** [enumerate(l)] *)
Definition enumerate {A : Type} (l : list A) : list (Z * A) := enumerate_from 0 l.

(** ** Strings *)

Definition ascii_code (c : ascii) : Z := Z.of_nat (nat_of_ascii c).
Definition ascii_chr (z : Z) : ascii := ascii_of_nat (Z.to_nat z).

(** [str.lower()] on strings whose code points are all below U+0100, which
    every prefix of the tables below is.  On the UTF-8 bytes: ASCII capitals
    move up by 32, and so do the capitals of the Latin-1 Supplement
    (U+00C0..U+00DE except the multiplication sign U+00D7), whose encoding is
    the lead byte 0xC3 followed by 0x80..0x9E.  Bytes of code points from
    U+0100 on are copied, so on such strings this is not [str.lower()]; no
    statement below relies on it there. *)
Fixpoint lower (s : string) : string :=
  match s with
  | EmptyString => EmptyString
  | String c s' =>
      let n := ascii_code c in
      if (65 <=? n) && (n <=? 90) then String (ascii_chr (n + 32)) (lower s')
      else if n =? 195 then
        match s' with
        | EmptyString => String c EmptyString
        | String d s'' =>
            let k := ascii_code d in
            if (128 <=? k) && (k <=? 158) && negb (k =? 151)
            then String c (String (ascii_chr (k + 32)) (lower s''))
            else String c (String d (lower s''))
        end
      else String c (lower s')
  end.

(** [sep.join(l)] *)
Fixpoint join (sep : string) (l : list string) : string :=
  match l with
  | [] => EmptyString
  | [x] => x
  | x :: l' => x ++ sep ++ join sep l'
  end.

(** [sub in s] on strs *)
Fixpoint contains (sub s : string) : bool :=
  String.prefix sub s ||
  match s with
  | EmptyString => false
  | String _ s' => contains sub s'
  end.

(** [s.split(sep)] for a one-character separator *)
Fixpoint split (sep : ascii) (s : string) : list string :=
  match s with
  | EmptyString => [EmptyString]
  | String c s' =>
      if Ascii.eqb c sep then EmptyString :: split sep s'
      else match split sep s' with
           | [] => [String c EmptyString]
           | w :: ws => String c w :: ws
           end
  end.

(** ** The effects of the script

    The script runs in a monad [m] with exceptions and the two interfaces
    below.  [MonadRandom] lists what it draws from the [random] module's
    hidden generator; [MonadOutput] is the opened CSV file and the console. *)

Class MonadRandom (m : Type -> Type) : Type :=
{ (** the truth value of [random.random() > t] *)
  random_gt : Q -> m bool
; (** [Random._randbelow(n)], for [n > 0]: an int in [[0, n)] *)
  randbelow : Z -> m Z
; (** [j = randbelow(n)], redrawn [while j in selected] *)
  randbelow_fresh : Z -> list Z -> m Z
}.

Class MonadOutput (m : Type -> Type) : Type :=
{ (** [open(path, 'w', newline='')] followed by [csv.writer(f)] *)
  open_writer : m unit
; (** [writer.writerow(row)] *)
  writerow : list pyval -> m unit
; (** [print(s)] *)
  print : string -> m unit
}.

Section Script.

Context {m : Type -> Type}.
Context {Monad_m : Monad m} {Exc_m : MonadExc exn m}.
Context {Random_m : MonadRandom m} {Output_m : MonadOutput m}.

(** [a % b] on ints *)
Definition py_mod (a b : Z) : m Z :=
  if b =? 0 then raise ZeroDivisionError else ret (a mod b).

(** [l[k]]: a negative index counts from the end. *)
Definition getitem {A : Type} (l : list A) (k : Z) : m A :=
  let k' := if k <? 0 then k + len l else k in
  if k' <? 0 then raise IndexError
  else match List.nth_error l (Z.to_nat k') with
       | Some x => ret x
       | None => raise IndexError
       end.

Fixpoint list_update {A : Type} (l : list A) (k : nat) (x : A) : list A :=
  match l, k with
  | [], _ => []
  | _ :: l', O => x :: l'
  | y :: l', S k' => y :: list_update l' k' x
  end.

(** [l[k] = x] *)
Definition setitem {A : Type} (l : list A) (k : Z) (x : A) : m (list A) :=
  let k' := if k <? 0 then k + len l else k in
  if (k' <? 0) || (len l <=? k') then raise IndexError
  else ret (list_update l (Z.to_nat k') x).

(** *** The [random] module (CPython's [Lib/random.py]) *)

(** [random.choice(seq)] *)
Definition choice {A : Type} (seq : list A) : m A :=
  if len seq =? 0 then raise IndexError
  else j <- randbelow (len seq) ;; getitem seq j.

(** [random.randint(a, b)], that is [randrange(a, b + 1)] *)
Definition randint (a b : Z) : m Z :=
  let width := b + 1 - a in
  if 0 <? width then j <- randbelow width ;; ret (a + j)
  else raise ValueError.

(** The pool loop of [random.sample]: [for i in range(k)] with the
    non-selected items kept at [pool[0 : n-i]]. *)
Fixpoint sample_pool {A : Type} (pool : list A) (n i : Z) (todo : nat) : m (list A) :=
  match todo with
  | O => ret []
  | S todo' =>
      j <- randbelow (n - i) ;;
      x <- getitem pool j ;;
      y <- getitem pool (n - i - 1) ;;
      pool' <- setitem pool j y ;;
      rest <- sample_pool pool' n (i + 1) todo' ;;
      ret (x :: rest)
  end.

(** The set loop of [random.sample]: positions already taken are redrawn. *)
Fixpoint sample_set {A : Type} (population : list A) (n : Z) (selected : list Z)
    (todo : nat) : m (list A) :=
  match todo with
  | O => ret []
  | S todo' =>
      j <- randbelow_fresh n selected ;;
      x <- getitem population j ;;
      rest <- sample_set population n (j :: selected) todo' ;;
      ret (x :: rest)
  end.

(** [4 ** ceil(log(x, 4))]: the least power of four that is at least [x]. *)
Definition pow4_ceil (x : Z) : Z := 4 ^ ((Z.log2_up x + 1) / 2).

(** [random.sample(population, k)] *)
Definition sample {A : Type} (population : list A) (k : Z) : m (list A) :=
  let n := len population in
  if negb ((0 <=? k) && (k <=? n)) then raise ValueError
  else
    let setsize := if 5 <? k then 21 + pow4_ceil (k * 3) else 21 in
    if n <=? setsize then sample_pool population n 0 (Z.to_nat k)
    else sample_set population n [] (Z.to_nat k).

End Script.

(** ** The embedded tables *)

(** One value of the [domains] dict: the four keys every entry carries. *)
Record Domain : Type :=
{ range : Z * Z
; prefixes : list string
; synthesis_types : list string
; genres : list string
}.

Definition computer_history : Domain :=
  {| range := (1, 100);
     prefixes :=
      ["Modem"; "Floppy"; "CRT"; "Dial-Up"; "Dot Matrix"; "Punch Card"; "ENIAC"; "BBS";
       "Hard Drive"; "Serial"; "Parallel"; "Vacuum Tube"; "Transistor"; "Calculator"; "Atari";
       "Teletext"; "Fax"; "Boot"; "Command Line"; "Tape"; "Memory"; "Network"; "CPU"; "Sinclair";
       "TRS-80"; "Commodore"; "BBC Micro"; "Apple II"; "Plotter"; "OCR"; "Paper Tape"; "Telex";
       "Morse"; "Telegraph"; "Rectifier"; "Triode"; "Cathode"; "Phosphor"; "Scan Line"; "NTSC";
       "Magnetic"; "Ferrite"; "Spark Gap"; "Crystal Radio"; "Phonograph"; "Shellac";
       "Wax Cylinder"; "Bakelite"; "PCB Trace"; "Solder"; "Potentiometer"; "Stepper"; "Servo";
       "PWM"; "Capacitor"; "Transistor"; "Diode"; "MOSFET"; "Zener"; "Thermistor"; "Photoresistor";
       "Solar Cell"; "LED"; "Optocoupler"; "LDR"; "Tape Saturation"; "Demagnetization";
       "Hysteresis"; "Eddy Current"; "Transformer"; "Y2K"; "Blue Screen"; "Defrag"; "Dial Tone";
       "Touch Tone"; "Busy Signal"; "Ring Cycle"; "Off Hook"; "Area Code"; "Long Distance";
       "Rotary"; "Phone Booth"; "Answering Machine"; "Cordless"; "Acoustic Coupler"; "Party Line";
       "Operator"; "Time Announce"; "Weather Service"; "Emergency"; "Payphone"; "Phone Card";
       "Voicemail"; "Conference"];
     synthesis_types :=
      ["fm"; "subtractive"; "wavetable"; "granular"; "physical_modeling"; "additive";
       "sample_based"; "feedback"; "noise"; "hybrid"];
     genres :=
      ["Retro"; "Glitch"; "Experimental"; "Lo-Fi"; "Industrial"; "Ambient"; "Chiptune"; "Digital"] |}.

Definition vintage_synths : Domain :=
  {| range := (101, 200);
     prefixes :=
      ["Moog"; "Buchla"; "ARP"; "Oberheim"; "Prophet"; "Juno"; "Jupiter"; "TB-303"; "TR-808";
       "TR-909"; "Fairlight"; "Synclavier"; "PPG"; "DX"; "MS-20"; "Odyssey"; "Serge"; "EMS";
       "Korg"; "Roland"; "Sequential"; "Ensoniq"; "Kurzweil"; "Waldorf"; "Access"; "Clavia";
       "Novation"; "Arturia"; "DSI"; "Elektron"; "Teenage"; "Modal"; "Mutable"; "Make Noise";
       "Intellijel"; "Doepfer"; "Modcan"; "Analogue"; "Cwejman"; "Metasonix"; "Macbeth";
       "Studio Electronics"; "Vermona"; "MFB"; "Dreadbox"; "Erica"; "Pittsburgh"; "4ms"; "Tiptop";
       "WMD"; "Qu-Bit"; "Noise Engineering"; "Joranalogue"; "Instruo"; "Frap"; "Verbos";
       "Endorphin"; "Steady State"; "Rossum"; "Livestock"; "ALM"; "After Later"; "Blue Lantern";
       "Circuit Abbey"; "Dove"; "EMW"; "Future Sound"; "Gezeiten"; "Happy Nerding";
       "Industrial Music"; "Joranalogue"; "Kammerl"; "LPZW"; "Manhattan"; "New Systems";
       "Olegtron"; "Paratek"; "Qubit"; "RYO"; "SSF"; "Tesseract"; "Ultrasound"; "Void"; "WMD";
       "Xaoc"; "York"; "Zlob"; "Atomosynth"; "Behringer"; "Cre8audio"; "Error"; "Folktek";
       "G-Storm"];
     synthesis_types :=
      ["hybrid"; "subtractive"; "fm"; "wavetable"; "additive"; "feedback"; "noise"; "granular";
       "sample_based"; "physical_modeling"];
     genres :=
      ["Synthwave"; "Experimental"; "Drone"; "Ambient"; "Techno"; "Industrial"; "Acid";
       "Progressive"] |}.

Definition natural_phenomena : Domain :=
  {| range := (201, 300);
     prefixes :=
      ["Thunder"; "Aurora"; "Rain"; "Wind"; "Hurricane"; "Blizzard"; "Earthquake"; "Volcanic";
       "Geothermal"; "Crystal"; "Cave"; "Mineral"; "Tectonic"; "Lava"; "Stalactite"; "Ocean";
       "Tsunami"; "Deep Sea"; "Waterfall"; "Glacier"; "River"; "Frozen Lake"; "Whirlpool"; "Ice";
       "Heartbeat"; "Breath"; "Neural"; "Neuron"; "Cell"; "DNA"; "Bacterial"; "Amino";
       "Mitochondria"; "Protein"; "Organ"; "Bone"; "Forest"; "Desert"; "Swamp"; "Rainforest";
       "Grassland"; "Reef"; "Fungal"; "Coral"; "Ant Colony"; "Wolf Pack"; "Pulsar"; "Solar Wind";
       "Black Hole"; "Supernova"; "Quasar"; "Neutron"; "Cosmic"; "Magnetar"; "Zodiacal";
       "Chemical"; "Catalyst"; "Exothermic"; "Crystal"; "Oxidation"; "Fermentation"; "Polymer";
       "Photosynthesis"; "Combustion"; "Radioactive"; "Entropy"; "Wave"; "Harmonic"; "Frequency";
       "Phase"; "Doppler"; "Acoustic"; "Overtone"; "Spring"; "Summer"; "Autumn"; "Winter"; "Thaw";
       "Monsoon"; "Dry Season"; "Permafrost"; "Tidal"; "Spring Tide"; "Neap Tide"; "Rip Current";
       "Undertow"; "Ebb Flow"; "Coastline"; "River Meander"; "Sediment"; "Canyon"; "Dune";
       "Landslide"; "Weathering"; "Fractal"; "Spiral"; "Fibonacci"; "Sunflower"];
     synthesis_types :=
      ["fm"; "subtractive"; "wavetable"; "granular"; "physical_modeling"; "additive"; "feedback";
       "noise"; "hybrid"; "sample_based"];
     genres :=
      ["Ambient"; "Dark Ambient"; "Experimental"; "Drone"; "Cinematic"; "Meditative"; "Natural";
       "Ethereal"] |}.

Definition industrial : Domain :=
  {| range := (301, 400);
     prefixes :=
      ["Gear"; "Piston"; "Turbine"; "Conveyor"; "Welding"; "Pneumatic"; "Steam"; "Furnace";
       "Jackhammer"; "Transformer"; "Relay"; "Valve"; "Grinding"; "Chain"; "Hydraulic"; "Drill";
       "Stamping"; "Factory"; "Demolition"; "Engine"; "Motor"; "Compressor"; "Electromagnetic";
       "Siren"; "Saw Blade"; "Forging"; "Magnetic"; "Electrical"; "Air Brake"; "Compression";
       "Pulse"; "Speed Ramp"; "Clock"; "Rotor"; "Spindle"; "Lathe"; "Press"; "Roller"; "Conveyor";
       "Hoist"; "Crane"; "Winch"; "Pulley"; "Lever"; "Cam"; "Crank"; "Flywheel"; "Governor";
       "Clutch"; "Brake"; "Bearing"; "Bushing"; "Gasket"; "Seal"; "Pump"; "Fan"; "Blower";
       "Compressor"; "Turbine"; "Generator"; "Alternator"; "Dynamo"; "Motor"; "Engine"; "Boiler";
       "Condenser"; "Heat Exchanger"; "Radiator"; "Cooler"; "Heater"; "Furnace"; "Kiln"; "Oven";
       "Dryer"; "Mixer"; "Agitator"; "Centrifuge"; "Filter"; "Separator"; "Crusher"; "Grinder";
       "Mill"; "Shredder"; "Chipper"; "Cutter"; "Slicer"; "Chopper"; "Press"; "Extruder"; "Molder";
       "Former"; "Welder"; "Solder"; "Riveter"; "Bolter"; "Screwer"; "Assembler"; "Tester";
       "Inspector"];
     synthesis_types :=
      ["fm"; "subtractive"; "wavetable"; "granular"; "physical_modeling"; "additive"; "noise";
       "feedback"; "hybrid"; "sample_based"];
     genres :=
      ["Industrial"; "Mechanical"; "Dark"; "Rhythmic"; "Percussion"; "Texture"; "Aggressive";
       "Ambient"] |}.

Definition scientific : Domain :=
  {| range := (401, 500);
     prefixes :=
      ["Superposition"; "Entanglement"; "Heisenberg"; "Schrödinger"; "Quantum"; "Planck";
       "Wave Function"; "Photon"; "Antiparticle"; "Qubit"; "Strange Attractor"; "Butterfly";
       "Logistic"; "Lorenz"; "Mandelbrot"; "Bifurcation"; "Chaos"; "Sensitive"; "Strange Loop";
       "Attractor"; "Fractal"; "Julia"; "Sierpinski"; "Koch"; "Apollonian"; "Droste"; "Barnsley";
       "Menger"; "Möbius"; "Klein"; "Toroidal"; "Genus"; "Knot"; "Handle"; "Topological";
       "Surface"; "Prime"; "Sieve"; "RSA"; "Fermat"; "Goldbach"; "Mersenne"; "Twin Prime";
       "Riemann"; "Modular"; "Fibonacci"; "Golden Ratio"; "Spiral"; "Phyllotaxis"; "Nautilus";
       "Entropy"; "Thermal"; "Second Law"; "Heat Death"; "Boltzmann"; "Temperature";
       "Phase Transition"; "Equilibrium"; "Reversibility"; "Black Body"; "Doppler";
       "Time Dilation"; "Spacetime"; "Gravitational"; "Light Cone"; "Frame Dragging";
       "Relativistic"; "Singularity"; "String"; "Superstring"; "Higgs"; "Gauge"; "Quark"; "Gluon";
       "Lepton"; "Muon"; "Neutrino"; "Hadron"; "Double Slit"; "Interference"; "Standing Wave";
       "Node"; "Beat Frequency"; "Phase Coherence"; "Diffraction"; "Resonance"; "Harmonic";
       "Overtone"; "Formant"; "Coupled"];
     synthesis_types :=
      ["fm"; "wavetable"; "additive"; "granular"; "subtractive"; "feedback"; "hybrid"; "noise";
       "physical_modeling"; "sample_based"];
     genres :=
      ["Experimental"; "Ambient"; "Abstract"; "Mathematical"; "Psychoacoustic"; "Electronic";
       "Drone"; "Generative"] |}.

Definition world_instruments : Domain :=
  {| range := (501, 600);
     prefixes :=
      ["Gamelan"; "Sitar"; "Tabla"; "Didgeridoo"; "Kalimba"; "Mbira"; "Koto"; "Shamisen"; "Erhu";
       "Pipa"; "Oud"; "Santoor"; "Balalaika"; "Bouzouki"; "Hurdy Gurdy"; "Bagpipe"; "Accordion";
       "Harmonium"; "Throat Singing"; "Overtone"; "Bell"; "Gong"; "Singing Bowl"; "Wind Chimes";
       "Music Box"; "Carillon"; "Glass Harmonica"; "Waterphone"; "Hang Drum"; "Jaw Harp";
       "Bullroarer"; "Daegeum"; "Hulusi"; "Bowed Psaltery"; "Steelpan"; "Tar"; "Qin"; "Saz"; "Ney";
       "Nai"; "Berimbau"; "Riq"; "Doumbek"; "Ud"; "Kemençe"; "Suling"; "Bamboo"; "Rebab";
       "Cimbalom"; "Zither"; "Dulcimer"; "Autoharp"; "Lyre"; "Harp"; "Kantele"; "Bandura"; "Gusli";
       "Kokle"; "Jouhikko"; "Talharpa"; "Langspil"; "Hardingfele"; "Nyckelharpa"; "Säckpipa";
       "Seljefløyte"; "Bukkehorn"; "Lur"; "Birch Trumpet"; "Willow Flute"; "Jew's Harp";
       "Langspil"; "Fidla"; "Þjóðhátíð"; "Bumbulum"; "Cuíca"; "Pandeiro"; "Surdo"; "Repique";
       "Tamborim"; "Agogô"; "Ganzá"; "Reco-Reco"; "Chocalho"; "Xequerê"; "Caxixi"; "Afoxé";
       "Atabaque"; "Alfaia"; "Zabumba"; "Triângulo"; "Maracatu"; "Berimbau"; "Conga"; "Bongo";
       "Timbales"; "Güiro"; "Maracas"; "Claves"];
     synthesis_types :=
      ["fm"; "additive"; "physical_modeling"; "granular"; "wavetable"; "sample_based"; "hybrid";
       "subtractive"; "feedback"; "noise"];
     genres :=
      ["World"; "Ethnic"; "Meditative"; "Percussive"; "Traditional"; "Experimental"; "Ambient";
       "Expressive"] |}.

Definition space_cosmic : Domain :=
  {| range := (601, 700);
     prefixes :=
      ["Pulsar"; "Magnetar"; "Neutron"; "Quasar"; "Black Hole"; "Event Horizon"; "Accretion";
       "Relativistic"; "Hawking"; "Supernova"; "Stellar"; "Cosmic"; "Solar Wind"; "Nebula";
       "Dust Cloud"; "Emission"; "Reflection"; "Planetary"; "Pillars"; "Dark Nebula";
       "Solar Flare"; "Coronal"; "Prominence"; "Heliosphere"; "Photosphere"; "Magnetosphere";
       "Ionosphere"; "Radiation Belt"; "Solar Cycle"; "Aurora"; "Green Glow"; "Van Allen";
       "Proton Event"; "Ray Shower"; "Cherenkov"; "Bremsstrahlung"; "Cascade"; "Muon Decay";
       "Saturn Rings"; "Cassini"; "Shepherd"; "Ice Particle"; "Dust Ring"; "Ring Resonance";
       "Orbital"; "Asteroid"; "Meteor"; "Meteorite"; "Ablation"; "Atmospheric"; "Comet"; "Nucleus";
       "Tail"; "Sublimation"; "Coma"; "Radio Pulsar"; "Radio Quiet"; "Pulsar Wind"; "Fast Radio";
       "Repeating FRB"; "Dispersion"; "Pulse Profile"; "Radio Morphology"; "Synchrotron";
       "Betatron"; "Cyclotron"; "Plasma"; "Birkeland"; "Alfven"; "Radio Telescope"; "Antenna";
       "Signal"; "Noise Floor"; "Interference"; "Microwave Background"; "Temperature";
       "Acoustic Peaks"; "Gravitational Wave"; "Merger"; "LIGO"; "Ringdown"; "Binary";
       "Dark Matter"; "Halo"; "WIMP"; "Axion"; "Spaghettification"; "Photon Sphere";
       "Naked Singularity"; "White Hole"; "Wormhole"; "Kerr"; "Reissner"; "Tensor"; "Metric";
       "Christoffel"; "Ricci"; "Einstein"];
     synthesis_types :=
      ["fm"; "wavetable"; "additive"; "granular"; "subtractive"; "noise"; "feedback"; "hybrid";
       "sample_based"; "physical_modeling"];
     genres :=
      ["Sci-Fi"; "Ambient"; "Dark"; "Cinematic"; "Experimental"; "Ethereal"; "Drone"; "Generative"] |}.

Definition biological : Domain :=
  {| range := (701, 800);
     prefixes :=
      ["Helix"; "Ribosome"; "Mitochondria"; "Synapse"; "Heartbeat"; "Breathing"; "Digestion";
       "Blood"; "Muscle"; "Bone"; "Skin"; "Hair"; "Root"; "Photon"; "Mycelium"; "Spore";
       "Bacterial"; "Viral"; "Parasite"; "Symbiosis"; "Metamorphosis"; "Cocoon"; "Egg"; "Birth";
       "Decay"; "Decomposition"; "Fossil"; "Evolution"; "Mutation"; "Adaptation"; "Axon";
       "Dendrite"; "Ganglion"; "Glial"; "Vesicle"; "Receptor"; "Neurotransmitter"; "Soma";
       "Neuropeptide"; "Potassium"; "Calcium"; "GABA"; "Glutamate"; "Dopamine"; "Serotonin";
       "Cortisol"; "Adrenaline"; "Melatonin"; "Endorphin"; "Oxytocin"; "Insulin"; "Cortex";
       "Cerebellum"; "Hippocampus"; "Amygdala"; "Thalamus"; "Pineal"; "Pituitary"; "Hypothalamus";
       "Cerebral"; "Nerve"; "Glial Scar"; "White Matter"; "Gray Matter"; "Synaptogenesis";
       "Myelin"; "Membrane"; "Vesicular"; "Retrograde"; "Presynaptic"; "Postsynaptic";
       "Heterosynaptic"; "Homosynaptic"; "Neuromuscular"; "Motor Neuron"; "Proprioception";
       "Cutaneous"; "Nociception"; "Thermoreception"; "Chemoreception"; "Photoreception";
       "Equilibrium"; "Temporal Bone"; "Cochlear"; "Hair Cell"; "Vestibular"; "Organ of Corti";
       "Endolymph"; "Perilymph"; "Stapes"; "Ossicle"; "Ear Canal"; "Tympanum"; "Auditory Cortex"];
     synthesis_types :=
      ["fm"; "feedback"; "granular"; "wavetable"; "additive"; "subtractive"; "hybrid"; "noise";
       "sample_based"; "physical_modeling"];
     genres :=
      ["Experimental"; "Ambient"; "Organic"; "Meditative"; "Dark"; "Electronic"; "Psychoacoustic";
       "Generative"] |}.

Definition experimental : Domain :=
  {| range := (801, 900);
     prefixes :=
      ["Escher"; "Paradox"; "Hypnagogic"; "Hallucination"; "Synesthetic"; "Temporal"; "Parallel";
       "Glitch Reality"; "Inverted"; "Recursive"; "Impossible"; "Ego Death"; "Consciousness";
       "Rebirth"; "Memory Decay"; "Uncanny Valley"; "Liminal"; "Cosmic Horror"; "Abstract";
       "Color-Sound"; "Taste-Timbre"; "Thought"; "Memetic"; "Infinite Regression";
       "Broken Physics"; "Quantum Superposition"; "Time Loop"; "Alternate Dimension";
       "Synapse Misfire"; "Void"; "Möbius"; "Dream"; "Perception"; "Entropy"; "Echo Nowhere";
       "Consciousness Download"; "Backwards Evolution"; "Probability Cloud"; "Inverse Mirror";
       "Nested Consciousness"; "Artifact"; "Reality Seam"; "Dreamcatcher"; "Letter Frequencies";
       "Ego Fragment"; "Entropy Crystal"; "Hyperbolic"; "Threshold"; "Memetic Infection";
       "Broken Causality"; "Alternate Timeline"; "Emotion Mapping"; "Identity Processor";
       "Probability"; "Void Resonance"; "Decay Memory"; "Shape Tones"; "Inverted Envelope";
       "Eternal Moment"; "Parallel Perception"; "Thought-Space"; "Glitch Consciousness";
       "Backwards Speech"; "Membrane"; "Echo Chamber"; "Kaleidoscope"; "Void Creature";
       "Consciousness Cascade"; "Scent-Sound"; "Entropy Reversal"; "Impossible Interval";
       "Dream Logic"; "Membrane Between"; "Ego Death Progression"; "Recursive Dream";
       "Motion-Sound"; "Quantum Foam"; "Alternate Logic"; "Conscious Feedback";
       "Taste-Color-Sound"; "Liminal Dream"; "Thought Crystal"; "Broken Mirror"; "Parallel Leak";
       "Pain-Sound"; "Void Echo"; "Impossible Object"; "Consciousness Threshold"; "Recursive Nest";
       "Dream-Logic"; "Electromagnetic"; "Entropy-Driven"; "Perceptual"; "Time-Reversed";
       "Paradox Resonator"; "Gravity-Sound"; "Void Between"];
     synthesis_types :=
      ["fm"; "granular"; "hybrid"; "additive"; "noise"; "feedback"; "wavetable"; "subtractive";
       "physical_modeling"; "sample_based"];
     genres :=
      ["Experimental"; "Ambient"; "Weird"; "Psychoacoustic"; "Glitch"; "Surreal"; "Abstract";
       "Unsettling"] |}.

Definition generative : Domain :=
  {| range := (901, 1000);
     prefixes :=
      ["Conway Life"; "Wolfram"; "L-System"; "Genetic Algorithm"; "Markov Chain"; "Perlin Noise";
       "Flocking"; "Ant Colony"; "Lorenz"; "Turing Pattern"; "Rossler"; "Henon"; "Chua"; "Ikeda";
       "Tent Map"; "Baker Map"; "Horseshoe"; "Arnold"; "Standard Map"; "Chirikov"; "Logistic";
       "Mandelbrot"; "Julia"; "Newton"; "Halley"; "Householder"; "Secant"; "Bisection";
       "False Position"; "Fixed Point"; "Picard"; "Banach"; "Contraction"; "Lipschitz"; "Cauchy";
       "Euler"; "Runge-Kutta"; "Adams"; "Milne"; "Hamming"; "Predictor"; "Corrector"; "Multistep";
       "Linear Multistep"; "Backward Difference"; "Gear"; "BDF"; "Trapezoidal"; "Midpoint"; "Heun";
       "RK2"; "RK4"; "RKF45"; "Dormand"; "Prince"; "Cash-Karp"; "Bogacki"; "Shampine"; "Fehlberg";
       "Verner"; "Butcher"; "Singly Diagonal"; "Embedded"; "Adaptive"; "Variable Step";
       "Dense Output"; "Continuous"; "Interpolating"; "Collocation"; "Galerkin"; "Petrov";
       "Spectral"; "Finite Element"; "Boundary Element"; "Finite Volume"; "Finite Difference";
       "Pseudospectral"; "Chebyshev"; "Legendre"; "Hermite"; "Laguerre"; "Jacobi"; "Gegenbauer";
       "Ultraspherical"; "Associated Legendre"; "Spherical Harmonic"; "Zernike"; "Bessel";
       "Hankel"; "Neumann"; "Struve"; "Airy"; "Scorer"; "Kelvin"; "Lommel"; "Anger"; "Weber"];
     synthesis_types :=
      ["hybrid"; "wavetable"; "additive"; "granular"; "feedback"; "noise"; "fm"; "subtractive";
       "sample_based"; "physical_modeling"];
     genres :=
      ["Generative"; "Ambient"; "Experimental"; "Glitch"; "Algorithmic"; "Chaotic";
       "Self-Organizing"; "Emergent"] |}.

Definition domains : list (string * Domain) :=
  [("computer_history", computer_history);
   ("vintage_synths", vintage_synths);
   ("natural_phenomena", natural_phenomena);
   ("industrial", industrial);
   ("scientific", scientific);
   ("world_instruments", world_instruments);
   ("space_cosmic", space_cosmic);
   ("biological", biological);
   ("experimental", experimental);
   ("generative", generative)].

Definition features : list string :=
  ["oscillator coupling"; "harmonic mapping"; "spectral morphing"; "granular density";
   "feedback routing"; "modulation matrix"; "wavetable scanning"; "physical resonance";
   "envelope shaping"; "filter topology"; "chaos modulation"; "fractal generation";
   "pattern sequencing"; "stochastic triggering"; "recursive feedback"; "harmonic series";
   "ring modulation"; "frequency shifting"; "phase distortion"; "wavefolding";
   "sample rate reduction"; "bit crushing"; "spectral freeze"; "time stretching";
   "pitch shifting"; "formant filtering"; "comb filtering"; "allpass diffusion"; "convolution";
   "granular freeze"; "spectral blur"; "harmonic excitation"].

(** The role words of the [else] branch of the name expression. *)
Definition role_words : list string :=
  ["Engine"; "Generator"; "Oscillator"; "Filter"; "Processor"; "Modulator"; "Resonator";
   "Sequencer"].

(** The first row written to the file. *)
Definition header : list pyval :=
  [PStr "id"; PStr "name"; PStr "description"; PStr "synthesis_type"; PStr "key_feature";
   PStr "genre_tags"; PStr "weirdness_level"].

(** The list of f-strings built by [generate_description]. *)
Definition templates (prefix : string) : list string :=
  [prefix ++ "-inspired synthesis with unique timbral characteristics";
   "Models " ++ lower prefix ++ " behavior using advanced DSP techniques";
   prefix ++ " patterns drive oscillator and modulation parameters";
   "Physical modeling of " ++ lower prefix ++ " acoustic properties";
   "Granular processing inspired by " ++ lower prefix ++ " textures";
   "FM synthesis capturing " ++ lower prefix ++ " harmonic relationships";
   "Wavetable morphing based on " ++ lower prefix ++ " waveforms";
   "Additive synthesis recreating " ++ lower prefix ++ " spectra";
   "Feedback network simulating " ++ lower prefix ++ " dynamics";
   "Hybrid synthesis combining multiple " ++ lower prefix ++ " characteristics"].

(** ** The script *)

Section Generator.

Context {m : Type -> Type}.
Context {Monad_m : Monad m} {Exc_m : MonadExc exn m}.
Context {Random_m : MonadRandom m} {Output_m : MonadOutput m}.

Definition generate_description (prefix domain : string) : m string :=
  choice (templates prefix).

(** ['Synth' if random.random() > 0.5 else random.choice([...])] *)
Definition role_word : m string :=
  b <- random_gt (1 # 2) ;;
  if b : bool then ret "Synth" else choice role_words.

(** [";".join(random.sample(genres, min(3, len(genres))))] *)
Definition genre_tags (genres : list string) : m string :=
  picked <- sample genres (Z.min 3 (len genres)) ;;
  ret (join ";" picked).

(** [random.randint(2, 9) if "experimental" not in domain_name
     else random.randint(6, 10)] *)
Definition weirdness_level (domain_name : string) : m Z :=
  if negb (contains "experimental" domain_name) then randint 2 9 else randint 6 10.

(** The body of the inner loop up to the row handed to the writer. *)
Definition assemble_row (domain_name : string) (prefixes synth_types genres : list string)
    (i idx : Z) : m (list pyval) :=
  p <- py_mod i (len prefixes) ;;
  prefix <- getitem prefixes p ;;
  role <- role_word ;;
  let name := prefix ++ " " ++ role in
  desc <- generate_description prefix domain_name ;;
  t <- py_mod i (len synth_types) ;;
  synth_type <- getitem synth_types t ;;
  feature <- choice features ;;
  genre <- genre_tags genres ;;
  weirdness <- weirdness_level domain_name ;;
  ret [PInt idx; PStr name; PStr desc; PStr synth_type; PStr feature; PStr genre;
       PInt weirdness].

(** A [for] statement over a list. *)
Fixpoint for_each {A : Type} (l : list A) (body : A -> m unit) : m unit :=
  match l with
  | [] => ret tt
  | x :: l' => body x ;; for_each l' body
  end.

Definition domain_rows (domain_name : string) (domain : Domain) : m unit :=
  let '(start, stop) := range domain in
  let prefixes := prefixes domain in
  let synth_types := synthesis_types domain in
  let genres := genres domain in
  for_each (enumerate (py_range start (stop + 1)))
    (fun '(i, idx) =>
       row <- assemble_row domain_name prefixes synth_types genres i idx ;;
       writerow row).

(** The module body from the [with] statement on. *)
Definition main : m unit :=
  open_writer ;;
  writerow header ;;
  for_each domains (fun '(domain_name, domain) => domain_rows domain_name domain) ;;
  print "Generated 1000 synth ideas!".

End Generator.

(** ** Running the script on a tape of random draws

    One run of the script sees a finite number of draws of the hidden
    generator.  A [tape] lists the raw value behind each primitive draw in the
    order the draws happen; past its end every raw value is [0].  A primitive
    reduces the raw value into its own range, so every tape is a possible
    generator and every outcome of a primitive is produced by some tape. *)

Inductive outcome (A : Type) : Type :=
| Ok (a : A)
| Raised (e : exn)
| Diverges.

Arguments Ok {A} a.
Arguments Raised {A} e.
Arguments Diverges {A}.

Record world : Type :=
{ tape : list Z                    (* the draws still to come *)
; csv_file : list (list pyval)     (* the rows written to the file, oldest first *)
; console : list string            (* the lines printed, oldest first *)
}.

Definition run (A : Type) : Type := world -> outcome A * world.

Definition run_ret {A : Type} (a : A) : run A := fun w => (Ok a, w).

Definition run_bind {A B : Type} (c : run A) (k : A -> run B) : run B :=
  fun w =>
    match c w with
    | (Ok a, w') => k a w'
    | (Raised e, w') => (Raised e, w')
    | (Diverges, w') => (Diverges, w')
    end.

Definition run_raise {A : Type} (e : exn) : run A := fun w => (Raised e, w).

Definition run_catch {A : Type} (c : run A) (h : exn -> run A) : run A :=
  fun w =>
    match c w with
    | (Raised e, w') => h e w'
    | r => r
    end.

#[export] Instance Monad_run : Monad run :=
{ ret := @run_ret; bind := @run_bind }.

#[export] Instance Exc_run : MonadExc exn run :=
{ raise := @run_raise; catch := @run_catch }.

(** The next raw draw and the rest of the tape. *)
Definition next_raw (t : list Z) : Z * list Z :=
  match t with
  | [] => (0, [])
  | r :: t' => (r, t')
  end.

Definition set_tape (w : world) (t : list Z) : world :=
  {| tape := t; csv_file := csv_file w; console := console w |}.

(** [random.random()] returns a multiple of [2 ** -53] in [[0, 1)]. *)
Definition float_grid : Z := 2 ^ 53.

Definition unit_float (r : Z) : Q := Qmake (r mod float_grid) (Z.to_pos float_grid).

Definition Qgt_bool (x y : Q) : bool := negb (Qle_bool x y).

Definition run_random_gt (t : Q) : run bool :=
  fun w =>
    let '(r, t') := next_raw (tape w) in
    (Ok (Qgt_bool (unit_float r) t), set_tape w t').

(** [_randbelow(n)] redraws until the result is below [n]; for [n <= 0]
    no draw ever is. *)
Definition run_randbelow (n : Z) : run Z :=
  fun w =>
    if n <=? 0 then (Diverges, w)
    else let '(r, t') := next_raw (tape w) in (Ok (r mod n), set_tape w t').

Definition mem (j : Z) (l : list Z) : bool := List.existsb (Z.eqb j) l.

(** The redraw loop of the set branch of [random.sample].  Past the end of
    the tape every draw is [0]: the loop stops at once if [0] is free and
    never if it is taken. *)
Fixpoint fresh_on_tape (n : Z) (selected : list Z) (t : list Z) : option (Z * list Z) :=
  match t with
  | [] => if mem (0 mod n) selected then None else Some (0 mod n, [])
  | r :: t' =>
      if mem (r mod n) selected then fresh_on_tape n selected t'
      else Some (r mod n, t')
  end.

Definition run_randbelow_fresh (n : Z) (selected : list Z) : run Z :=
  fun w =>
    if n <=? 0 then (Diverges, w)
    else match fresh_on_tape n selected (tape w) with
         | Some (j, t') => (Ok j, set_tape w t')
         | None => (Diverges, set_tape w [])
         end.

#[export] Instance Random_run : MonadRandom run :=
{ random_gt := run_random_gt
; randbelow := run_randbelow
; randbelow_fresh := run_randbelow_fresh
}.

Definition run_open_writer : run unit :=
  fun w => (Ok tt, {| tape := tape w; csv_file := []; console := console w |}).

Definition run_writerow (row : list pyval) : run unit :=
  fun w =>
    (Ok tt, {| tape := tape w; csv_file := (csv_file w ++ [row])%list; console := console w |}).

Definition run_print (s : string) : run unit :=
  fun w =>
    (Ok tt, {| tape := tape w; csv_file := csv_file w; console := (console w ++ [s])%list |}).

#[export] Instance Output_run : MonadOutput run :=
{ open_writer := run_open_writer
; writerow := run_writerow
; print := run_print
}.

(** A fresh process: nothing printed yet, and whatever the path held before. *)
Definition start (t : list Z) (old : list (list pyval)) : world :=
  {| tape := t; csv_file := old; console := [] |}.

(** ** The text of the file

    [csv.writer] with the default dialect: comma delimiter, minimal quoting
    with the double-quote character (doubled inside a quoted field), and
    CR LF after each record. *)

Definition quotechar : ascii := "034"%char.
Definition delimiter : ascii := ","%char.
Definition lineterminator : string := String "013"%char (String "010"%char EmptyString).

Definition special (c : ascii) : bool :=
  Ascii.eqb c delimiter || Ascii.eqb c quotechar || Ascii.eqb c "013"%char
  || Ascii.eqb c "010"%char.

Fixpoint needs_quotes (s : string) : bool :=
  match s with
  | EmptyString => false
  | String c s' => special c || needs_quotes s'
  end.

Fixpoint double_quotes (s : string) : string :=
  match s with
  | EmptyString => EmptyString
  | String c s' =>
      if Ascii.eqb c quotechar then String c (String c (double_quotes s'))
      else String c (double_quotes s')
  end.

Definition quote_field (s : string) : string :=
  if needs_quotes s
  then String quotechar (double_quotes s ++ String quotechar EmptyString)
  else s.

(** The text [writerow] emits for one row.  A row made of one empty field
    is written as a pair of quotes. *)
Definition csv_record (row : list pyval) : string :=
  let fields := List.map (fun v => quote_field (str v)) row in
  match fields with
  | [EmptyString] => String quotechar (String quotechar lineterminator)
  | _ => join (String delimiter EmptyString) fields ++ lineterminator
  end.

Definition file_text (rows : list (list pyval)) : string :=
  String.concat EmptyString (List.map csv_record rows).

(** The outcome of the script and the world it leaves behind. *)
Definition generate (t : list Z) (old : list (list pyval)) : outcome unit * world :=
  main (start t old).

(** ** The law of a random computation

    The same interface read as finite probability distributions: a list of
    outcomes with their weights.  The generator's floats are the [2 ** 53]
    equally likely multiples of [2 ** -53]; [_randbelow(n)] is uniform on
    [[0, n)], and the redraw loop is uniform on the positions still free. *)

Definition dist (A : Type) : Type := list (outcome A * Q).

Definition dist_ret {A : Type} (a : A) : dist A := [(Ok a, 1%Q)].

Definition scale {A : Type} (p : Q) (d : dist A) : dist A :=
  List.map (fun '(o, q) => (o, Qred (p * q))) d.

Definition dist_bind {A B : Type} (c : dist A) (k : A -> dist B) : dist B :=
  List.flat_map
    (fun '(o, p) =>
       match o with
       | Ok a => scale p (k a)
       | Raised e => [(Raised e, p)]
       | Diverges => [(Diverges, p)]
       end) c.

Definition dist_raise {A : Type} (e : exn) : dist A := [(Raised e, 1%Q)].

Definition dist_catch {A : Type} (c : dist A) (h : exn -> dist A) : dist A :=
  List.flat_map
    (fun '(o, p) =>
       match o with
       | Raised e => scale p (h e)
       | _ => [(o, p)]
       end) c.

#[export] Instance Monad_dist : Monad dist :=
{ ret := @dist_ret; bind := @dist_bind }.

#[export] Instance Exc_dist : MonadExc exn dist :=
{ raise := @dist_raise; catch := @dist_catch }.

(** Equal weights on the members of a non-empty list. *)
Definition uniform {A : Type} (l : list A) : dist A :=
  match l with
  | [] => [(Diverges, 1%Q)]
  | _ => List.map (fun a => (Ok a, Qmake 1 (Pos.of_nat (List.length l)))) l
  end.

(** How many of the floats [k / 2 ** 53], for [k] in [[0, 2 ** 53)], exceed [t]. *)
Definition floats_above (t : Q) : Z :=
  Z.max 0 (Z.min float_grid (float_grid - 1 - Qfloor (t * inject_Z float_grid))).

Definition dist_random_gt (t : Q) : dist bool :=
  let above := floats_above t in
  [(Ok true, Qred (Qmake above (Z.to_pos float_grid)));
   (Ok false, Qred (Qmake (float_grid - above) (Z.to_pos float_grid)))].

Definition dist_randbelow (n : Z) : dist Z := uniform (py_range 0 n).

Definition dist_randbelow_fresh (n : Z) (selected : list Z) : dist Z :=
  uniform (List.filter (fun j => negb (mem j selected)) (py_range 0 n)).

#[export] Instance Random_dist : MonadRandom dist :=
{ random_gt := dist_random_gt
; randbelow := dist_randbelow
; randbelow_fresh := dist_randbelow_fresh
}.

(** The probability that the computation returns a value satisfying [ev]. *)
Definition Pr {A : Type} (d : dist A) (ev : A -> bool) : Q :=
  Qred (List.fold_right
          (fun '(o, p) acc =>
             match o with
             | Ok a => if ev a then (p + acc)%Q else acc
             | _ => acc
             end) 0%Q d).

(** * Vocabulary of the statements *)

(** ** Outcomes of parts of a run

    [yields c post]: from every world, [c] returns a value satisfying [post]
    and touches nothing but the tape. *)

Definition yields {A : Type} (c : run A) (post : A -> Prop) : Prop :=
  forall w, exists a t', c w = (Ok a, set_tape w t') /\ post a.

(** What [assemble_row] may return at zero-based position [i] of a domain,
    for the id [idx]. *)
Inductive row_shape (domain_name : string) (d : Domain) (i idx : Z) : list pyval -> Prop :=
| RowShape (prefix role desc synth feature : string) (picked : list string) (weird : Z) :
    nth_error (prefixes d) (Z.to_nat (i mod len (prefixes d))) = Some prefix ->
    role = "Synth" \/ In role role_words ->
    (exists j, 0 <= j < 10 /\ nth_error (templates prefix) (Z.to_nat j) = Some desc) ->
    nth_error (synthesis_types d) (Z.to_nat (i mod len (synthesis_types d))) = Some synth ->
    In feature features ->
    List.length picked = Z.to_nat (Z.min 3 (len (genres d))) ->
    incl picked (genres d) ->
    (NoDup (genres d) -> NoDup picked) ->
    (if contains "experimental" domain_name then 6 <= weird <= 10 else 2 <= weird <= 9) ->
    row_shape domain_name d i idx
      [PInt idx; PStr (prefix ++ " " ++ role); PStr desc; PStr synth; PStr feature;
       PStr (join ";" picked); PInt weird].

(** [writes c post]: from every world, [c] returns normally, appends to the
    file a list of rows satisfying [post], and prints nothing. *)
Definition writes (c : run unit) (post : list (list pyval) -> Prop) : Prop :=
  forall w, exists rows t',
    c w = (Ok tt, {| tape := t'; csv_file := (csv_file w ++ rows)%list; console := console w |})
    /\ post rows.

(** The positions the script visits, in order: the owning domain's name and
    tables, the zero-based position within the domain, and the id. *)
Definition domain_slots (domain_name : string) (d : Domain) : list (string * Domain * Z * Z) :=
  let '(start, stop) := range d in
  List.map (fun '(i, idx) => (domain_name, d, i, idx))
    (enumerate (py_range start (stop + 1))).

Definition slots : list (string * Domain * Z * Z) :=
  flat_map (fun '(domain_name, d) => domain_slots domain_name d) domains.

Definition slot_row (s : string * Domain * Z * Z) (row : list pyval) : Prop :=
  let '(domain_name, d, i, idx) := s in row_shape domain_name d i idx row.

(** The tables of a domain let every row be assembled. *)
Definition well_formed (d : Domain) : bool :=
  negb (len (prefixes d) =? 0) && negb (len (synthesis_types d) =? 0)
  && (len (genres d) <=? 21).

Definition completion_message : string := "Generated 1000 synth ideas!".

(** ** Rows, ids and owners *)

(** The [id] cell of a data row. *)
Definition row_id (row : list pyval) : option Z :=
  match row with
  | PInt idx :: _ => Some idx
  | _ => None
  end.

Definition slot_id (s : string * Domain * Z * Z) : Z := snd s.

(** [owns domain_name d i idx]: the id [idx] lies in the range of the domain
    [d], declared under [domain_name], at zero-based position [i]. *)
Definition owns (domain_name : string) (d : Domain) (i idx : Z) : Prop :=
  In (domain_name, d) domains /\
  fst (range d) <= idx <= snd (range d) /\
  i = idx - fst (range d).

(** [every_row t old P]: the run on tape [t] leaves the header and then, for
    each id in order, a row satisfying [P] together with its owning domain,
    its position in the domain and its id. *)
Definition every_row (t : list Z) (old : list (list pyval))
    (P : string -> Domain -> Z -> Z -> list pyval -> Prop) : Prop :=
  exists rows,
    csv_file (snd (generate t old)) = header :: rows /\
    Forall2 (fun s row => let '(domain_name, d, i, idx) := s in
                          owns domain_name d i idx /\ P domain_name d i idx row)
      slots rows.

(** ** Vocabularies and checks on the tables *)

(** The ten technique tags. *)
Definition synthesis_vocabulary : list string :=
  ["fm"; "subtractive"; "wavetable"; "granular"; "physical_modeling"; "additive";
   "sample_based"; "feedback"; "noise"; "hybrid"].

Definition in_list (s : string) (l : list string) : bool := List.existsb (String.eqb s) l.

Fixpoint has_char (c : ascii) (s : string) : bool :=
  match s with
  | EmptyString => false
  | String a s' => Ascii.eqb a c || has_char c s'
  end.

Fixpoint nodupb (l : list string) : bool :=
  match l with
  | [] => true
  | x :: l' => negb (in_list x l') && nodupb l'
  end.

(** The ten sentence templates as data: the text before the prefix, whether
    the prefix keeps its case, and the text after it. *)
Definition template_parts : list (string * bool * string) :=
  [(EmptyString, true, "-inspired synthesis with unique timbral characteristics");
   ("Models ", false, " behavior using advanced DSP techniques");
   (EmptyString, true, " patterns drive oscillator and modulation parameters");
   ("Physical modeling of ", false, " acoustic properties");
   ("Granular processing inspired by ", false, " textures");
   ("FM synthesis capturing ", false, " harmonic relationships");
   ("Wavetable morphing based on ", false, " waveforms");
   ("Additive synthesis recreating ", false, " spectra");
   ("Feedback network simulating ", false, " dynamics");
   ("Hybrid synthesis combining multiple ", false, " characteristics")].

(** A template filled with the prefix as it is, or with its lower-cased
    form given separately. *)
Definition fill_with (prefix lowered : string) (part : string * bool * string) : string :=
  let '(before, keep_case, after) := part in
  before ++ (if keep_case : bool then prefix else lowered) ++ after.

(** *** Lower-casing, stated on code points

    A [str] is a sequence of code points; the byte strings of this file are
    their UTF-8 encodings.  [str.lower()] maps a code point below U+0100 to
    [cp_lower] of it: the capitals A..Z and U+00C0..U+00DE except U+00D7
    move up by 32, every other code point stays. *)

(** The payload of a continuation byte 10xxxxxx. *)
Definition continuation (c : ascii) : option Z :=
  let n := ascii_code c in
  if (128 <=? n) && (n <=? 191) then Some (n - 128) else None.

(** The code points of a well-formed UTF-8 byte string (shortest forms
    only, no surrogates, nothing above U+10FFFF). *)
Fixpoint utf8_decode (s : string) : option (list Z) :=
  match s with
  | EmptyString => Some []
  | String c0 s1 =>
      let n := ascii_code c0 in
      if n <? 128 then option_map (cons n) (utf8_decode s1)
      else if (194 <=? n) && (n <=? 223) then
        match s1 with
        | String c1 s2 =>
            match continuation c1 with
            | Some a => option_map (cons ((n - 192) * 64 + a)) (utf8_decode s2)
            | None => None
            end
        | _ => None
        end
      else if (224 <=? n) && (n <=? 239) then
        match s1 with
        | String c1 (String c2 s3) =>
            match continuation c1, continuation c2 with
            | Some a, Some b =>
                let cp := (n - 224) * 4096 + a * 64 + b in
                if (2048 <=? cp) && negb ((55296 <=? cp) && (cp <=? 57343))
                then option_map (cons cp) (utf8_decode s3)
                else None
            | _, _ => None
            end
        | _ => None
        end
      else if (240 <=? n) && (n <=? 244) then
        match s1 with
        | String c1 (String c2 (String c3 s4)) =>
            match continuation c1, continuation c2, continuation c3 with
            | Some a, Some b, Some c =>
                let cp := (n - 240) * 262144 + a * 4096 + b * 64 + c in
                if (65536 <=? cp) && (cp <=? 1114111)
                then option_map (cons cp) (utf8_decode s4)
                else None
            | _, _, _ => None
            end
        | _ => None
        end
      else None
  end.

Definition byte (n : Z) (rest : string) : string := String (ascii_chr n) rest.

(** The UTF-8 encoding of one code point, in front of [rest]. *)
Definition utf8_encode_cp (cp : Z) (rest : string) : string :=
  if cp <? 128 then byte cp rest
  else if cp <? 2048 then byte (192 + cp / 64) (byte (128 + cp mod 64) rest)
  else if cp <? 65536 then
    byte (224 + cp / 4096) (byte (128 + (cp / 64) mod 64) (byte (128 + cp mod 64) rest))
  else
    byte (240 + cp / 262144)
      (byte (128 + (cp / 4096) mod 64)
         (byte (128 + (cp / 64) mod 64) (byte (128 + cp mod 64) rest))).

Definition utf8_encode (cps : list Z) : string :=
  List.fold_right utf8_encode_cp EmptyString cps.

(** [chr(cp).lower()] for a code point below U+0100. *)
Definition cp_lower (cp : Z) : Z :=
  if ((65 <=? cp) && (cp <=? 90)) || ((192 <=? cp) && (cp <=? 222) && negb (cp =? 215))
  then cp + 32
  else cp.

(** [lowercase_of s lowered]: [s] is made of code points below U+0100 and
    [lowered] is [s.lower()], code point by code point. *)
Definition lowercase_of (s lowered : string) : Prop :=
  exists cps,
    utf8_decode s = Some cps /\
    Forall (fun cp => 0 <= cp < 256) cps /\
    lowered = utf8_encode (List.map cp_lower cps).

(** Whether [s] is well-formed UTF-8 of code points below U+0100. *)
Definition latin1 (s : string) : bool :=
  match utf8_decode s with
  | Some cps => forallb (fun cp => (0 <=? cp) && (cp <? 256)) cps
  | None => false
  end.

(** ** Draws read by a computation *)

(** The first [n] raw draws a tape delivers. *)
Fixpoint window (n : nat) (t : list Z) : list Z :=
  match n with
  | O => []
  | S n' => fst (next_raw t) :: window n' (snd (next_raw t))
  end.

Definition same_output (w1 w2 : world) : Prop :=
  csv_file w1 = csv_file w2 /\ console w1 = console w2.

(** [reads c n]: [c] looks at no more than the next [n] draws.  Run from two
    worlds that show the same output and whose tapes deliver the same next
    [n + k] draws, it ends the same way, leaves the same output, and leaves
    tapes that deliver the same next [k] draws. *)
Definition reads {A : Type} (c : run A) (n : nat) : Prop :=
  forall (w1 w2 : world) (k : nat),
    window (n + k) (tape w1) = window (n + k) (tape w2) ->
    same_output w1 w2 ->
    fst (c w1) = fst (c w2) /\
    same_output (snd (c w1)) (snd (c w2)) /\
    window k (tape (snd (c w1))) = window k (tape (snd (c w2))).

(** Ten domains of a hundred ids, eight draws per row at most. *)
Definition draw_budget : nat := 10 * (100 * 8).

(** ** The text of the file, written and read back *)

Definition comma : string := String delimiter EmptyString.

(** A record none of whose fields is quoted. *)
Definition plain_record (row : list pyval) : string :=
  join comma (List.map str row) ++ lineterminator.

Definition plain (s : string) : bool := negb (needs_quotes s).

Definition header_line : string :=
  "id,name,description,synthesis_type,key_feature,genre_tags,weirdness_level"
  ++ lineterminator.

(** The reading side of the format (RFC 4180): records end with CR LF,
    fields are separated by commas, and a field that starts with a quote
    runs to the next quote that is not doubled.  It serves to state that
    what [csv.writer] emits is the standard escaping. *)

Inductive rstate : Type :=
| StartRecord      (* nothing read of the record yet *)
| StartField       (* just after a delimiter *)
| InField          (* inside an unquoted field *)
| InQuoted         (* inside a quoted field *)
| QuoteInQuoted    (* after a quote met inside a quoted field *)
| AfterCR.         (* after the CR that ends a record *)

Inductive ckind : Type := KQuote | KDelim | KCR | KLF | KOther.

Definition classify (c : ascii) : ckind :=
  if Ascii.eqb c delimiter then KDelim
  else if Ascii.eqb c quotechar then KQuote
  else if Ascii.eqb c "013"%char then KCR
  else if Ascii.eqb c "010"%char then KLF
  else KOther.

Definition snoc (s : string) (c : ascii) : string := s ++ String c EmptyString.

Fixpoint csv_read (st : rstate) (field : string) (record : list string) (text : string)
  : option (list (list string)) :=
  match text with
  | EmptyString =>
      match st with
      | StartRecord => Some []
      | _ => None
      end
  | String c text' =>
      match st, classify c with
      | StartRecord, KQuote | StartField, KQuote => csv_read InQuoted EmptyString record text'
      | StartRecord, KDelim | StartField, KDelim =>
          csv_read StartField EmptyString (record ++ [EmptyString])%list text'
      | StartRecord, KCR => csv_read AfterCR EmptyString record text'
      | StartField, KCR => csv_read AfterCR EmptyString (record ++ [EmptyString])%list text'
      | StartRecord, KOther | StartField, KOther =>
          csv_read InField (String c EmptyString) record text'
      | InField, KDelim => csv_read StartField EmptyString (record ++ [field])%list text'
      | InField, KCR => csv_read AfterCR EmptyString (record ++ [field])%list text'
      | InField, KOther => csv_read InField (snoc field c) record text'
      | InQuoted, KQuote => csv_read QuoteInQuoted field record text'
      | InQuoted, _ => csv_read InQuoted (snoc field c) record text'
      | QuoteInQuoted, KQuote => csv_read InQuoted (snoc field c) record text'
      | QuoteInQuoted, KDelim =>
          csv_read StartField EmptyString (record ++ [field])%list text'
      | QuoteInQuoted, KCR => csv_read AfterCR EmptyString (record ++ [field])%list text'
      | AfterCR, KLF =>
          option_map (cons record) (csv_read StartRecord EmptyString [] text')
      | _, _ => None
      end
  end.

(** The records of a file. *)
Definition read_file (text : string) : option (list (list string)) :=
  csv_read StartRecord EmptyString [] text.

Definition field_start (st : rstate) : Prop := st = StartRecord \/ st = StartField.

(** ** Further vocabulary: ownership, columns, whole tables *)

(** [start <= idx <= end] for a domain's ["range"] pair. *)
Definition in_range (idx : Z) (r : Z * Z) : bool := (fst r <=? idx) && (idx <=? snd r).

(** The domains of the table whose range holds [idx]. *)
Definition owners (idx : Z) : list (string * Domain) :=
  List.filter (fun nd => in_range idx (range (snd nd))) domains.

(** Ranges that follow one another without gap or overlap, the first one
    starting at [first], none of them empty. *)
Fixpoint chained (first : Z) (rs : list (Z * Z)) : bool :=
  match rs with
  | [] => true
  | (a, b) :: rs' => (a =? first) && (a <=? b) && chained (b + 1) rs'
  end.

(** The id after the last one of a chain of ranges. *)
Fixpoint chain_end (first : Z) (rs : list (Z * Z)) : Z :=
  match rs with
  | [] => first
  | (_, b) :: rs' => chain_end (b + 1) rs'
  end.

(** Whether the synthesis_type cell of a row is [ty]. *)
Definition has_synth (ty : string) (row : list pyval) : bool :=
  match nth_error row 3 with
  | Some (PStr s) => String.eqb s ty
  | _ => false
  end.

(** Whether the slot's position selects [ty] in its domain's list. *)
Definition slot_synth (ty : string) (s : string * Domain * Z * Z) : bool :=
  let '(_, d, i, _) := s in
  match nth_error (synthesis_types d) (Z.to_nat (i mod len (synthesis_types d))) with
  | Some s => String.eqb s ty
  | None => false
  end.

Definition same_members (l l' : list string) : bool :=
  nodupb l && nodupb l' && forallb (fun x => in_list x l') l
  && forallb (fun x => in_list x l) l'.

(** Each member of a list together with the others, in order. *)
Fixpoint picks {A : Type} (l : list A) : list (A * list A) :=
  match l with
  | [] => []
  | x :: l' => (x, l') :: List.map (fun '(y, rest) => (y, x :: rest)) (picks l')
  end.

(** The lists of three members of [l] taken at three different positions, in
    every order. *)
Definition ordered_triples {A : Type} (l : list A) : list (list A) :=
  flat_map (fun '(a, r1) =>
     flat_map (fun '(b, r2) => List.map (fun '(c, _) => [a; b; c]) (picks r2)) (picks r1))
    (picks l).

Definition Q_eqb (p q : Q) : bool := (Qnum p =? Qnum q) && Pos.eqb (Qden p) (Qden q).


(** *** The script on another table *)

Section Tables.

Context {m : Type -> Type}.
Context {Monad_m : Monad m} {Exc_m : MonadExc exn m}.
Context {Random_m : MonadRandom m} {Output_m : MonadOutput m}.

(** The module body from the [with] statement on, for another value of the
    [domains] dict. *)
Definition run_table (table : list (string * Domain)) : m unit :=
  open_writer ;;
  writerow header ;;
  for_each table (fun '(domain_name, domain) => domain_rows domain_name domain) ;;
  print "Generated 1000 synth ideas!".

End Tables.

(** The positions visited on a table, and their ids. *)
Definition table_slots (table : list (string * Domain)) : list (string * Domain * Z * Z) :=
  flat_map (fun '(domain_name, d) => domain_slots domain_name d) table.

Definition table_ids (table : list (string * Domain)) : list Z :=
  flat_map (fun nd => py_range (fst (range (snd nd))) (snd (range (snd nd)) + 1)) table.

(** A row at position [i] of a domain with every cell but the description
    accounted for: the description may be any string. *)
Inductive row_outline (domain_name : string) (d : Domain) (i idx : Z) : list pyval -> Prop :=
| RowOutline (prefix role desc synth feature : string) (picked : list string) (weird : Z) :
    nth_error (prefixes d) (Z.to_nat (i mod len (prefixes d))) = Some prefix ->
    role = "Synth" \/ In role role_words ->
    nth_error (synthesis_types d) (Z.to_nat (i mod len (synthesis_types d))) = Some synth ->
    In feature features ->
    List.length picked = Z.to_nat (Z.min 3 (len (genres d))) ->
    incl picked (genres d) ->
    (NoDup (genres d) -> NoDup picked) ->
    (if contains "experimental" domain_name then 6 <= weird <= 10 else 2 <= weird <= 9) ->
    row_outline domain_name d i idx
      [PInt idx; PStr (prefix ++ " " ++ role); PStr desc; PStr synth; PStr feature;
       PStr (join ";" picked); PInt weird].

Definition slot_outline (s : string * Domain * Z * Z) (row : list pyval) : Prop :=
  let '(domain_name, d, i, idx) := s in row_outline domain_name d i idx row.

(** A domain whose rows can all be assembled, or that has no id at all. *)
Definition usable (d : Domain) : bool :=
  well_formed d || (snd (range d) <? fst (range d)).

(** [fails c e]: from every world, [c] raises [e] and touches nothing but
    the tape. *)
Definition fails {A : Type} (c : run A) (e : exn) : Prop :=
  forall w, exists t', c w = (Raised e, set_tape w t').

(** Small tables for the worked cases. *)
Definition scrambled_table : list (string * Domain) :=
  [("later", {| range := (5, 6); prefixes := ["Bell"]; synthesis_types := ["fm"];
                genres := ["Drone"] |});
   ("hollow", {| range := (3, 2); prefixes := []; synthesis_types := []; genres := [] |});
   ("earlier", {| range := (4, 5); prefixes := ["Gong"]; synthesis_types := ["noise"];
                  genres := [] |})].

Definition bell_domain : Domain :=
  {| range := (1, 2); prefixes := ["Bell"]; synthesis_types := ["fm"]; genres := ["Drone"] |}.

Definition typeless_domain : Domain :=
  {| range := (3, 4); prefixes := ["Gong"]; synthesis_types := []; genres := ["Acid"] |}.

(** [draws c post]: from every world, [c] returns a value [a] after taking
    exactly [n] draws off the tape, with [post a n], and touches nothing
    else. *)
Definition draws {A : Type} (c : run A) (post : A -> nat -> Prop) : Prop :=
  forall w, exists a n,
    c w = (Ok a, set_tape w (skipn n (tape w))) /\ post a n.

(** * Verification *)

(** ** Worked runs *)

(** The float [(2 ** 53 - 1) / 2 ** 53] exceeds one half, so row 1 is a
    "Synth" and draws no role word; the float [0] does not, and row 2 takes
    role word 7.  Templates 3 and 9, features 5 and 31, pool positions
    7, 2, 2 and 1, 1, 1, and the weirdness draws 2 and 7 follow. *)
Example two_rows_on_a_tape :
  firstn 3 (csv_file (snd (generate
     [2 ^ 53 - 1; 3; 5; 7; 2; 2; 2;  0; 7; 9; 31; 1; 1; 1; 7] []))) =
  [header;
   [PInt 1; PStr "Modem Synth"; PStr "Physical modeling of modem acoustic properties";
    PStr "fm"; PStr "modulation matrix"; PStr "Digital;Experimental;Chiptune"; PInt 4];
   [PInt 2; PStr "Floppy Sequencer";
    PStr "Hybrid synthesis combining multiple floppy characteristics";
    PStr "subtractive"; PStr "harmonic excitation"; PStr "Glitch;Digital;Chiptune";
    PInt 9]].
Proof. vm_compute. reflexivity. Qed.

Example lower_latin1 :
  lower "Þjóðhátíð" = "þjóðhátíð" /\ lower "Schrödinger" = "schrödinger"
  /\ lower "TRS-80" = "trs-80".
Proof. repeat split. Qed.

(** The code points of a prefix and of its lower-cased form; a string with a
    code point from U+0100 on is outside [latin1]. *)
Example lowercase_of_code_points :
  utf8_decode "Þjóðhátíð" = Some [222; 106; 243; 240; 104; 225; 116; 237; 240]
  /\ utf8_encode [254; 106; 243; 240; 104; 225; 116; 237; 240] = "þjóðhátíð"
  /\ lowercase_of "Þjóðhátíð" "þjóðhátíð"
  /\ utf8_decode "ΩMEGA" = Some [937; 77; 69; 71; 65]
  /\ latin1 "ΩMEGA" = false.
Proof.
  split; [reflexivity|]. split; [reflexivity|]. split; [|split; reflexivity].
  exists [222; 106; 243; 240; 104; 225; 116; 237; 240].
  split; [reflexivity|]. split; [|reflexivity].
  repeat (apply Forall_cons; [lia|]). apply Forall_nil.
Qed.

(** The pool branch and the set branch of [random.sample], and its guard. *)
Example sample_branches :
  fst (sample (m := run) [1; 2; 3; 4; 5; 6; 7; 8] 3 (start [7; 2; 2] [])) = Ok [8; 3; 7]
  /\ fst (sample (m := run) (py_range 0 30) 3 (start [7; 7; 7; 2] [])) = Ok [7; 2; 0]
  /\ fst (sample (m := run) (py_range 0 3) 4 (start [] [])) = Raised ValueError.
Proof. repeat split. Qed.

(** What the script would do on tables it does not have. *)
Example empty_tables_raise :
  fst (assemble_row (m := run) "x" [] ["fm"] ["a"] 0 1 (start [] []))
    = Raised ZeroDivisionError
  /\ fst (choice (m := run) (@nil string) (start [] [])) = Raised IndexError.
Proof. repeat split. Qed.

(** The writer's text for cells that need quoting, and its reading. *)
Example quoting_round_trip :
  file_text [[PStr ("a,b" ++ String quotechar "c"); PInt 3; PStr EmptyString];
             [PStr EmptyString]]
  = String quotechar ("a,b" ++ String quotechar (String quotechar ("c" ++
      String quotechar (",3," ++ lineterminator ++
      String quotechar (String quotechar lineterminator)))))
  /\ read_file (file_text [[PStr ("a,b" ++ String quotechar "c"); PInt 3; PStr EmptyString];
                           [PStr EmptyString]])
     = Some [["a,b" ++ String quotechar "c"; "3"; EmptyString]; [EmptyString]].
Proof. repeat split. Qed.

(** ** Successful random computations *)

Lemma set_tape_same (w : world) : set_tape w (tape w) = w.
Proof. destruct w; reflexivity. Qed.

Lemma set_tape_twice (w : world) (t1 t2 : list Z) :
  set_tape (set_tape w t1) t2 = set_tape w t2.
Proof. reflexivity. Qed.

Lemma yields_ret {A : Type} (a : A) (post : A -> Prop) :
  post a -> yields (ret a) post.
Proof.
  intros Ha w. exists a, (tape w). now rewrite set_tape_same.
Qed.

Lemma yields_bind {A B : Type} (c : run A) (k : A -> run B)
    (mid : A -> Prop) (post : B -> Prop) :
  yields c mid -> (forall a, mid a -> yields (k a) post) -> yields (bind c k) post.
Proof.
  intros Hc Hk w. cbn. unfold run_bind.
  destruct (Hc w) as (a & t1 & -> & Ha).
  destruct (Hk a Ha (set_tape w t1)) as (b & t2 & -> & Hb).
  exists b, t2. now rewrite set_tape_twice.
Qed.

Lemma yields_weaken {A : Type} (c : run A) (post post' : A -> Prop) :
  yields c post -> (forall a, post a -> post' a) -> yields c post'.
Proof.
  intros Hc Himp w. destruct (Hc w) as (a & t' & E & Ha). eauto.
Qed.

Lemma yields_random_gt (t : Q) : yields (random_gt t) (fun _ => True).
Proof.
  intros w. cbn. unfold run_random_gt. destruct (next_raw (tape w)) as [r t'].
  eauto.
Qed.

Lemma yields_randbelow (n : Z) :
  0 < n -> yields (randbelow n) (fun j => 0 <= j < n).
Proof.
  intros Hn w. cbn. unfold run_randbelow.
  destruct (Z.leb_spec n 0); [lia|].
  destruct (next_raw (tape w)) as [r t'].
  exists (r mod n), t'. split; [reflexivity|]. now apply Z.mod_pos_bound.
Qed.

Lemma yields_py_mod (a b : Z) :
  b <> 0 -> yields (py_mod a b) (fun r => r = a mod b).
Proof.
  intros Hb. unfold py_mod. destruct (Z.eqb_spec b 0); [contradiction|].
  now apply yields_ret.
Qed.

Lemma yields_getitem {A : Type} (l : list A) (k : Z) :
  0 <= k < len l ->
  yields (getitem l k) (fun x => nth_error l (Z.to_nat k) = Some x).
Proof.
  intros Hk. unfold getitem. cbv zeta.
  destruct (Z.ltb_spec k 0); [lia|].
  destruct (Z.ltb_spec k 0); [lia|].
  destruct (nth_error l (Z.to_nat k)) as [x|] eqn:E.
  - now apply yields_ret.
  - apply nth_error_None in E. unfold len in Hk. lia.
Qed.

Lemma yields_setitem {A : Type} (l : list A) (k : Z) (x : A) :
  0 <= k < len l ->
  yields (setitem l k x) (fun l' => l' = list_update l (Z.to_nat k) x).
Proof.
  intros Hk. unfold setitem. cbv zeta.
  destruct (Z.ltb_spec k 0); [lia|].
  destruct (Z.ltb_spec k 0); [lia|].
  destruct (Z.leb_spec (len l) k); [lia|]. cbn [orb].
  now apply yields_ret.
Qed.

Lemma len_pos {A : Type} (l : list A) : l <> [] -> 0 < len l.
Proof. destruct l; [congruence|]. intros _. unfold len. cbn. lia. Qed.

Lemma yields_choice {A : Type} (seq : list A) :
  seq <> [] ->
  yields (choice seq)
    (fun x => exists j, 0 <= j < len seq /\ nth_error seq (Z.to_nat j) = Some x).
Proof.
  intros Hne. unfold choice. pose proof (len_pos seq Hne) as Hpos.
  destruct (Z.eqb_spec (len seq) 0); [lia|].
  eapply yields_bind; [now apply yields_randbelow|].
  intros j Hj. cbn beta.
  eapply yields_weaken; [now apply yields_getitem|].
  intros x Hx. exists j. split; assumption.
Qed.

Lemma yields_randint (a b : Z) :
  a <= b -> yields (randint a b) (fun z => a <= z <= b).
Proof.
  intros Hab. unfold randint. cbn zeta.
  destruct (Z.ltb_spec 0 (b + 1 - a)); [|lia].
  eapply yields_bind; [apply yields_randbelow; lia|].
  intros j Hj. cbv beta in Hj. apply yields_ret. lia.
Qed.

(** ** Sampling without replacement *)

Lemma list_update_length {A : Type} (l : list A) (k : nat) (x : A) :
  List.length (list_update l k x) = List.length l.
Proof.
  revert k. induction l as [|y l IH]; intros [|k]; cbn; auto.
Qed.

Lemma list_update_beyond {A : Type} (l : list A) (k : nat) (x : A) :
  (List.length l <= k)%nat -> list_update l k x = l.
Proof.
  revert k. induction l as [|y l IH]; intros [|k] Hk; cbn in *; auto; try lia.
  f_equal. apply IH. lia.
Qed.

Lemma list_update_firstn {A : Type} (l : list A) (r k : nat) (x : A) :
  firstn r (list_update l k x) = list_update (firstn r l) k x.
Proof.
  revert r k. induction l as [|y l IH]; intros [|r] [|k]; cbn; auto.
  now rewrite IH.
Qed.

Lemma list_update_middle {A : Type} (l1 l2 : list A) (x y : A) :
  list_update (l1 ++ x :: l2)%list (List.length l1) y = (l1 ++ y :: l2)%list.
Proof.
  induction l1 as [|z l1 IH]; cbn; [reflexivity|]. now rewrite IH.
Qed.

Lemma firstn_snoc {A : Type} (l : list A) (r : nat) (y : A) :
  nth_error l r = Some y -> firstn (S r) l = (firstn r l ++ [y])%list.
Proof.
  revert r. induction l as [|z l IH]; intros [|r] H; cbn in *; try discriminate.
  - now inversion H.
  - f_equal. now apply IH.
Qed.

(** One turn of the pool loop: the item taken leaves the live part of the
    pool, and the last live item fills its place. *)
Lemma pool_step {A : Type} (pool : list A) (r j : nat) (x y : A) :
  (j <= r)%nat ->
  nth_error pool j = Some x ->
  nth_error pool r = Some y ->
  Permutation (firstn (S r) pool) (x :: firstn r (list_update pool j y)).
Proof.
  intros Hj Hx Hy.
  rewrite (firstn_snoc _ _ _ Hy), list_update_firstn.
  assert (Hr : (r < List.length pool)%nat) by (apply nth_error_Some; congruence).
  destruct (Nat.eq_dec j r) as [->|Hne].
  - rewrite list_update_beyond by (rewrite length_firstn; lia).
    assert (x = y) by congruence. subst y.
    symmetry. apply Permutation_cons_append.
  - assert (Hx' : nth_error (firstn r pool) j = Some x).
    { rewrite nth_error_firstn. destruct (Nat.ltb_spec j r); [assumption|lia]. }
    destruct (nth_error_split _ _ Hx') as (l1 & l2 & E & Hlen).
    rewrite E, <- Hlen, list_update_middle.
    rewrite <- app_assoc. cbn [app].
    rewrite <- Permutation_middle. apply perm_skip.
    apply Permutation_app_head.
    symmetry. apply (Permutation_cons_append l2 y).
Qed.

Lemma yields_sample_pool {A : Type} (todo : nat) :
  forall (pool : list A) (n i : Z),
    0 <= i -> i + Z.of_nat todo <= n -> n <= len pool ->
    yields (sample_pool pool n i todo)
      (fun picked =>
         List.length picked = todo /\
         incl picked (firstn (Z.to_nat (n - i)) pool) /\
         (NoDup (firstn (Z.to_nat (n - i)) pool) -> NoDup picked)).
Proof.
  induction todo as [|todo IH]; intros pool n i Hi Hn Hlen.
  - cbn [sample_pool]. apply yields_ret. repeat split.
    + intros x [].
    + intros _. constructor.
  - cbn [sample_pool]. unfold len in Hlen.
    eapply yields_bind; [apply yields_randbelow; lia|].
    intros j Hj. cbv beta in Hj.
    eapply yields_bind; [apply yields_getitem; unfold len; lia|].
    intros x Hx. cbv beta in Hx.
    eapply yields_bind; [apply yields_getitem; unfold len; lia|].
    intros y Hy. cbv beta in Hy.
    eapply yields_bind; [apply yields_setitem; unfold len; lia|].
    intros pool' ->.
    eapply yields_bind.
    { apply (IH (list_update pool (Z.to_nat j) y) n (i + 1)); try lia.
      unfold len. rewrite list_update_length. lia. }
    intros rest (Hrl & Hincl & Hnd). apply yields_ret.
    assert (HP : Permutation (firstn (Z.to_nat (n - i)) pool)
                   (x :: firstn (Z.to_nat (n - (i + 1)))
                           (list_update pool (Z.to_nat j) y))).
    { replace (Z.to_nat (n - i)) with (S (Z.to_nat (n - (i + 1)))) by lia.
      apply pool_step; [lia|assumption|].
      replace (Z.to_nat (n - (i + 1))) with (Z.to_nat (n - i - 1)) by lia.
      assumption. }
    repeat split.
    + cbn. now rewrite Hrl.
    + intros z [<-|Hz].
      * apply (Permutation_in _ (Permutation_sym HP)). now left.
      * apply (Permutation_in _ (Permutation_sym HP)). right. now apply Hincl.
    + intros Hnodup.
      pose proof (Permutation_NoDup HP Hnodup) as Hnd'.
      inversion Hnd' as [|? ? Hnotin Hnd'']; subst.
      constructor; auto.
Qed.

Lemma yields_sample {A : Type} (population : list A) (k : Z) :
  0 <= k <= len population -> len population <= 21 ->
  yields (sample population k)
    (fun picked =>
       List.length picked = Z.to_nat k /\
       incl picked population /\
       (NoDup population -> NoDup picked)).
Proof.
  intros Hk Hsmall. unfold sample. cbv zeta.
  destruct (Z.leb_spec 0 k); [|lia].
  destruct (Z.leb_spec k (len population)); [|lia]. cbn [andb negb].
  assert (Hbranch : (len population <=?
            (if 5 <? k then 21 + pow4_ceil (k * 3) else 21)) = true).
  { apply Z.leb_le. destruct (5 <? k); [|assumption].
    unfold pow4_ceil.
    pose proof (Z.pow_nonneg 4 ((Z.log2_up (k * 3) + 1) / 2)). lia. }
  rewrite Hbranch.
  eapply yields_weaken.
  { apply yields_sample_pool; try lia. }
  intros picked (Hl & Hincl & Hnd). rewrite Z.sub_0_r in *.
  assert (E : firstn (Z.to_nat (len population)) population = population).
  { unfold len. rewrite Nat2Z.id. apply firstn_all. }
  rewrite E in *. auto.
Qed.

(** ** The shape of an assembled row *)

Lemma yields_role_word :
  yields role_word (fun role => role = "Synth" \/ In role role_words).
Proof.
  unfold role_word.
  eapply yields_bind; [apply yields_random_gt|].
  intros [|] _.
  - apply yields_ret. now left.
  - eapply yields_weaken; [apply yields_choice; discriminate|].
    intros role (j & _ & Hj). right. eapply nth_error_In, Hj.
Qed.

Lemma yields_generate_description (prefix domain : string) :
  yields (generate_description prefix domain)
    (fun desc =>
       exists j, 0 <= j < 10 /\ nth_error (templates prefix) (Z.to_nat j) = Some desc).
Proof.
  unfold generate_description.
  eapply yields_weaken; [apply yields_choice; discriminate|].
  intros desc Hd. exact Hd.
Qed.

Lemma yields_genre_tags (genres : list string) :
  len genres <= 21 ->
  yields (genre_tags genres)
    (fun genre =>
       exists picked,
         genre = join ";" picked /\
         List.length picked = Z.to_nat (Z.min 3 (len genres)) /\
         incl picked genres /\
         (NoDup genres -> NoDup picked)).
Proof.
  intros Hsmall. unfold genre_tags.
  eapply yields_bind.
  { apply yields_sample; [|assumption]. unfold len. lia. }
  intros picked (Hl & Hincl & Hnd). apply yields_ret.
  exists picked. auto.
Qed.

Lemma yields_weirdness_level (domain_name : string) :
  yields (weirdness_level domain_name)
    (fun weird =>
       if contains "experimental" domain_name then 6 <= weird <= 10
       else 2 <= weird <= 9).
Proof.
  unfold weirdness_level.
  destruct (contains "experimental" domain_name); cbn [negb];
    apply yields_randint; lia.
Qed.

(** Row assembly succeeds on every non-empty pair of cycled lists and every
    genre list short enough for the pool branch of [random.sample]. *)
Lemma yields_assemble_row (domain_name : string) (d : Domain) (i idx : Z) :
  prefixes d <> [] -> synthesis_types d <> [] -> len (genres d) <= 21 ->
  yields (assemble_row domain_name (prefixes d) (synthesis_types d) (genres d) i idx)
    (row_shape domain_name d i idx).
Proof.
  intros Hp Hs Hg. unfold assemble_row.
  pose proof (len_pos _ Hp) as Hp'. pose proof (len_pos _ Hs) as Hs'.
  eapply yields_bind; [apply yields_py_mod; lia|]. intros p ->.
  eapply yields_bind.
  { apply yields_getitem. apply Z.mod_pos_bound; lia. }
  intros prefix Hprefix. cbv beta in Hprefix.
  eapply yields_bind; [apply yields_role_word|]. intros role Hrole.
  eapply yields_bind; [apply yields_generate_description|]. intros desc Hdesc.
  eapply yields_bind; [apply yields_py_mod; lia|]. intros t ->.
  eapply yields_bind.
  { apply yields_getitem. apply Z.mod_pos_bound; lia. }
  intros synth Hsynth. cbv beta in Hsynth.
  eapply yields_bind; [apply yields_choice; discriminate|].
  intros feature (j & _ & Hfeature).
  eapply yields_bind; [apply yields_genre_tags; assumption|].
  intros genre (picked & -> & Hl & Hincl & Hnd).
  eapply yields_bind; [apply yields_weirdness_level|]. intros weird Hweird.
  apply yields_ret.
  constructor; auto. eapply nth_error_In, Hfeature.
Qed.

(** ** The loops *)

Lemma writes_row (c : run (list pyval)) (post : list pyval -> Prop) :
  yields c post ->
  writes (row <- c ;; writerow row) (fun rows => exists row, rows = [row] /\ post row).
Proof.
  intros Hc w. cbn. unfold run_bind.
  destruct (Hc w) as (row & t' & -> & Hrow).
  exists [row], t'. split; [reflexivity|]. eauto.
Qed.

Lemma writes_for_each {A B : Type} (items : A -> list B) (slot : B -> list pyval -> Prop)
    (body : A -> run unit) (l : list A) :
  (forall x, In x l -> writes (body x) (Forall2 slot (items x))) ->
  writes (for_each l body) (Forall2 slot (flat_map items l)).
Proof.
  induction l as [|x l IH]; intros Hbody w.
  - exists [], (tape w). cbn. unfold run_ret. rewrite app_nil_r.
    split; [destruct w; reflexivity|constructor].
  - cbn. unfold run_bind.
    destruct (Hbody x (or_introl eq_refl) w) as (rows1 & t1 & -> & H1).
    destruct (IH (fun y Hy => Hbody y (or_intror Hy))
                {| tape := t1; csv_file := (csv_file w ++ rows1)%list; console := console w |})
      as (rows2 & t2 & -> & H2).
    exists (rows1 ++ rows2)%list, t2. cbn. rewrite app_assoc.
    split; [reflexivity|]. now apply Forall2_app.
Qed.

Lemma well_formed_spec (d : Domain) :
  well_formed d = true ->
  prefixes d <> [] /\ synthesis_types d <> [] /\ len (genres d) <= 21.
Proof.
  unfold well_formed. intros H.
  apply andb_prop in H as [H Hg]. apply andb_prop in H as [Hp Hs].
  apply Z.leb_le in Hg.
  repeat split; [intros E; rewrite E in Hp|intros E; rewrite E in Hs|assumption];
    discriminate.
Qed.

Lemma flat_map_singleton {A B : Type} (f : A -> B) (l : list A) :
  flat_map (fun x => [f x]) l = List.map f l.
Proof. induction l as [|x l IH]; cbn; [reflexivity|]. now rewrite IH. Qed.

Lemma writes_domain_rows (domain_name : string) (d : Domain) :
  well_formed d = true ->
  writes (domain_rows domain_name d) (Forall2 slot_row (domain_slots domain_name d)).
Proof.
  intros Hwf. apply well_formed_spec in Hwf as (Hp & Hs & Hg).
  unfold domain_rows, domain_slots. destruct (range d) as [start stop].
  rewrite <- flat_map_singleton.
  apply (writes_for_each
           (fun x : Z * Z => [let '(i, idx) := x in (domain_name, d, i, idx)]) slot_row).
  intros [i idx] _ w.
  destruct (writes_row _ _ (yields_assemble_row domain_name d i idx Hp Hs Hg) w)
    as (rows & t' & E & row & -> & Hrow).
  exists [row], t'. split; [exact E|]. repeat constructor. exact Hrow.
Qed.

Lemma domains_well_formed : forallb (fun nd => well_formed (snd nd)) domains = true.
Proof. vm_compute. reflexivity. Qed.

(** Every run of the script ends normally, whatever the tape and whatever the
    file held before: the file is the header followed by one row per slot, and
    the console shows the completion message. *)
Lemma generate_rows (t : list Z) (old : list (list pyval)) :
  exists rows t',
    generate t old =
      (Ok tt, {| tape := t'; csv_file := header :: rows; console := [completion_message] |})
    /\ Forall2 slot_row slots rows.
Proof.
  assert (Hloop : writes (for_each domains (fun '(domain_name, domain) =>
                                              domain_rows domain_name domain))
                    (Forall2 slot_row slots)).
  { apply (writes_for_each (fun nd : string * Domain => domain_slots (fst nd) (snd nd))).
    intros [domain_name d] Hin. cbn [fst snd]. apply writes_domain_rows.
    pose proof domains_well_formed as Hall. rewrite forallb_forall in Hall.
    exact (Hall _ Hin). }
  unfold generate, main. revert Hloop.
  generalize (for_each domains (fun '(domain_name, domain) =>
                                  domain_rows domain_name domain)).
  intros loop Hloop.
  destruct (Hloop {| tape := t; csv_file := [header]; console := [] |})
    as (rows & t' & E & Hrows).
  exists rows, t'. split; [|exact Hrows].
  cbv [bind Monad_run run_bind open_writer writerow print Output_run run_open_writer
       run_writerow run_print start tape csv_file console app].
  cbv [tape csv_file console app] in E. rewrite E. reflexivity.
Qed.

(** ** Ids *)

Lemma slot_row_id (s : string * Domain * Z * Z) (row : list pyval) :
  slot_row s row -> row_id row = Some (slot_id s).
Proof.
  destruct s as [[[domain_name d] i] idx]. intros H. now destruct H.
Qed.

Lemma Forall2_map_eq {A B C : Type} (f : A -> C) (g : B -> C) (R : A -> B -> Prop)
    (l : list A) (l' : list B) :
  (forall a b, R a b -> g b = f a) -> Forall2 R l l' -> List.map g l' = List.map f l.
Proof.
  intros HR H. induction H as [|a b l l' Hab _ IH]; cbn; [reflexivity|].
  now rewrite (HR a b Hab), IH.
Qed.

Lemma slots_ids : List.map slot_id slots = py_range 1 1001.
Proof. vm_compute. reflexivity. Qed.

Lemma py_range_sorted (start stop : Z) : StronglySorted Z.lt (py_range start stop).
Proof.
  unfold py_range. generalize (Z.to_nat (stop - start)) as n. generalize 0%nat as s.
  intros s n. revert s. induction n as [|n IH]; intros s; cbn; constructor.
  - apply IH.
  - apply Forall_forall. intros z Hz. apply in_map_iff in Hz as (k & <- & Hk).
    apply in_seq in Hk. lia.
Qed.

Lemma py_range_In (start stop k : Z) :
  In k (py_range start stop) <-> start <= k < stop.
Proof.
  unfold py_range. rewrite in_map_iff. split.
  - intros (j & <- & Hj). apply in_seq in Hj. lia.
  - intros Hk. exists (Z.to_nat (k - start)). split; [lia|]. apply in_seq. lia.
Qed.

Lemma py_range_length (start stop : Z) :
  List.length (py_range start stop) = Z.to_nat (stop - start).
Proof. unfold py_range. now rewrite length_map, length_seq. Qed.

(** C1. Every run of the generator, whatever the random draws and whatever
    the file held before, ends normally and leaves in the file exactly one
    header row followed by exactly 1000 data rows; the ids of the data rows
    are 1, 2, ..., 1000 in this order (the domains are walked in declaration
    order and each range ascends), so they form exactly the set {1,...,1000}
    and are strictly increasing in output order. *)
Theorem C1_header_then_1000_rows_ascending (t : list Z) (old : list (list pyval)) :
  exists rows ids,
    fst (generate t old) = Ok tt /\
    csv_file (snd (generate t old)) = header :: rows /\
    row_id header = None /\
    List.length domains = 10%nat /\
    List.length rows = 1000%nat /\
    List.map row_id rows = List.map Some ids /\
    ids = flat_map (fun nd => py_range (fst (range (snd nd))) (snd (range (snd nd)) + 1))
            domains /\
    ids = py_range 1 1001 /\
    (forall k, In k ids <-> 1 <= k <= 1000) /\
    StronglySorted Z.lt ids.
Proof.
  destruct (generate_rows t old) as (rows & t' & E & Hrows).
  exists rows, (py_range 1 1001). rewrite E. cbn [fst snd csv_file].
  assert (Hids : List.map row_id rows = List.map Some (py_range 1 1001)).
  { rewrite <- slots_ids, map_map.
    apply (Forall2_map_eq _ _ slot_row); [|exact Hrows].
    intros s row. apply slot_row_id. }
  split; [reflexivity|]. split; [reflexivity|]. split; [reflexivity|].
  split; [reflexivity|].
  split.
  { apply (f_equal (@List.length _)) in Hids.
    rewrite !length_map, py_range_length in Hids. exact Hids. }
  split; [exact Hids|]. split; [vm_compute; reflexivity|]. split; [reflexivity|].
  split; [|apply py_range_sorted].
  intros k. rewrite py_range_In. lia.
Qed.

(** ** Worked rows *)

Lemma Forall2_nth_error {A B : Type} (R : A -> B -> Prop) (l : list A) (l' : list B)
    (k : nat) (a : A) :
  Forall2 R l l' -> nth_error l k = Some a ->
  exists b, nth_error l' k = Some b /\ R a b.
Proof.
  intros H. revert k. induction H as [|x y l l' Hxy _ IH]; intros [|k] Hk; cbn in *;
    try discriminate.
  - inversion Hk; subst. eauto.
  - now apply IH.
Qed.

(** C3, as the code has it.  In every run the row of id 1 (position 0 of
    computer_history) has prefix "Modem" and synthesis type "fm".  The row of
    id 100, the last id of that domain, sits at position 99; the prefix list
    has 94 entries, so its prefix is prefixes[99 mod 94] = prefixes[5] =
    "Punch Card".  "Conference" is the last entry of the list, at index 93. *)
Theorem C3_rows_1_and_100 (t : list Z) (old : list (list pyval)) :
  exists rows row1 row100 role1 role100,
    csv_file (snd (generate t old)) = header :: rows /\
    nth_error rows 0 = Some row1 /\ row_id row1 = Some 1 /\
    nth_error row1 1 = Some (PStr ("Modem" ++ " " ++ role1)) /\
    nth_error row1 3 = Some (PStr "fm") /\
    nth_error rows 99 = Some row100 /\ row_id row100 = Some 100 /\
    nth_error row100 1 = Some (PStr ("Punch Card" ++ " " ++ role100)) /\
    In role1 ("Synth" :: role_words) /\ In role100 ("Synth" :: role_words) /\
    nth_error domains 0 = Some ("computer_history", computer_history) /\
    range computer_history = (1, 100) /\
    len (prefixes computer_history) = 94 /\
    99 mod len (prefixes computer_history) = 5 /\
    nth_error (prefixes computer_history) 5 = Some "Punch Card" /\
    nth_error (prefixes computer_history) 93 = Some "Conference" /\
    nth_error (synthesis_types computer_history) 0 = Some "fm".
Proof.
  destruct (generate_rows t old) as (rows & t' & E & Hrows).
  assert (H0 : nth_error slots 0 = Some ("computer_history", computer_history, 0, 1))
    by (vm_compute; reflexivity).
  assert (H99 : nth_error slots 99 = Some ("computer_history", computer_history, 99, 100))
    by (vm_compute; reflexivity).
  destruct (Forall2_nth_error _ _ _ _ _ Hrows H0) as (row1 & Hrow1 & S1).
  destruct (Forall2_nth_error _ _ _ _ _ Hrows H99) as (row100 & Hrow100 & S100).
  cbn [slot_row] in S1, S100.
  destruct S1 as [p1 role1 ? s1 ? ? ? Hp1 Hr1 _ Hs1 _ _ _ _ _].
  destruct S100 as [p100 role100 ? ? ? ? ? Hp100 Hr100 _ _ _ _ _ _ _].
  vm_compute in Hp1, Hs1, Hp100.
  inversion Hp1; inversion Hs1; inversion Hp100; subst.
  eexists rows, _, _, role1, role100. rewrite E. cbn [snd csv_file].
  split; [reflexivity|].
  split; [exact Hrow1|]. split; [reflexivity|]. split; [reflexivity|].
  split; [reflexivity|].
  split; [exact Hrow100|]. split; [reflexivity|]. split; [reflexivity|].
  split; [destruct Hr1 as [->|Hr1]; [now left|now right]|].
  split; [destruct Hr100 as [->|Hr100]; [now left|now right]|].
  repeat (split; [reflexivity|]). reflexivity.
Qed.

(** C3, as stated, fails at id 100: the prefix list of computer_history has
    94 entries rather than 100, position 99 wraps around to index 5, and the
    run on the all-zero tape writes "Punch Card Engine" as the name of id 100
    ("Conference" is the prefix of id 94). *)
Lemma C3_counterexample :
  len (prefixes computer_history) <> 100 /\
  nth_error (prefixes computer_history)
    (Z.to_nat (99 mod len (prefixes computer_history))) <> Some "Conference" /\
  nth_error (csv_file (snd (generate [] []))) 100 =
    Some [PInt 100; PStr "Punch Card Engine";
          PStr "Punch Card-inspired synthesis with unique timbral characteristics";
          PStr "hybrid"; PStr "oscillator coupling"; PStr "Retro;Digital;Chiptune"; PInt 2].
Proof.
  split; [|split].
  - vm_compute. discriminate.
  - vm_compute. discriminate.
  - vm_compute. reflexivity.
Qed.

(** ** Statements about every row *)

Lemma enumerate_from_In {A : Type} (l : list A) :
  forall (n i : Z) (x : A),
    In (i, x) (enumerate_from n l) ->
    n <= i /\ nth_error l (Z.to_nat (i - n)) = Some x.
Proof.
  induction l as [|y l IH]; intros n i x H; cbn in H; [contradiction|].
  destruct H as [H|H].
  - inversion H; subst. rewrite Z.sub_diag. split; [lia|reflexivity].
  - apply IH in H as [Hle Hnth]. split; [lia|].
    replace (Z.to_nat (i - n)) with (S (Z.to_nat (i - (n + 1)))) by lia.
    exact Hnth.
Qed.

Lemma py_range_nth (start stop : Z) (k : nat) (x : Z) :
  nth_error (py_range start stop) k = Some x ->
  x = start + Z.of_nat k /\ x < stop.
Proof.
  intros H. pose proof (nth_error_In _ _ H) as Hin. apply py_range_In in Hin.
  unfold py_range in H. rewrite nth_error_map in H.
  destruct (nth_error (seq 0 (Z.to_nat (stop - start))) k) as [j|] eqn:E;
    [|discriminate].
  inversion H; subst.
  assert (Hk : (k < List.length (seq 0 (Z.to_nat (stop - start))))%nat)
    by (apply nth_error_Some; congruence).
  rewrite (nth_error_nth' _ 0%nat Hk) in E. rewrite length_seq in Hk.
  rewrite seq_nth in E by exact Hk. inversion E; subst. lia.
Qed.

Lemma slots_owned (domain_name : string) (d : Domain) (i idx : Z) :
  In (domain_name, d, i, idx) slots -> owns domain_name d i idx.
Proof.
  unfold slots. intros H. apply in_flat_map in H as ([name' d'] & Hdom & H).
  unfold domain_slots in H. destruct (range d') as [start stop] eqn:Er.
  apply in_map_iff in H as ([i' idx'] & Heq & H). inversion Heq; subst.
  apply enumerate_from_In in H as [Hi H]. apply py_range_nth in H as [Hidx Hstop].
  unfold owns. rewrite Er. cbn [fst snd]. split; [exact Hdom|]. lia.
Qed.

Lemma Forall2_impl_In {A B : Type} (R R' : A -> B -> Prop) (l : list A) (l' : list B) :
  (forall a b, In a l -> R a b -> R' a b) -> Forall2 R l l' -> Forall2 R' l l'.
Proof.
  intros HR H. induction H as [|a b l l' Hab _ IH]; constructor.
  - apply HR; [now left|exact Hab].
  - apply IH. intros a' b' Hin. apply HR. now right.
Qed.

Lemma every_row_intro (t : list Z) (old : list (list pyval))
    (P : string -> Domain -> Z -> Z -> list pyval -> Prop) :
  (forall domain_name d i idx row,
      In (domain_name, d, i, idx) slots ->
      row_shape domain_name d i idx row -> P domain_name d i idx row) ->
  every_row t old P.
Proof.
  intros HP. destruct (generate_rows t old) as (rows & t' & E & Hrows).
  exists rows. rewrite E. split; [reflexivity|].
  apply (Forall2_impl_In slot_row); [|exact Hrows].
  intros [[[domain_name d] i] idx] row Hin Hshape.
  split; [now apply slots_owned|now apply HP].
Qed.

(** A property of the tables checked on every slot by evaluation. *)
Lemma slots_check (check : string * Domain * Z * Z -> bool) (s : string * Domain * Z * Z) :
  forallb check slots = true -> In s slots -> check s = true.
Proof. intros H. rewrite forallb_forall in H. apply H. Qed.

(** ** Synthesis types *)

Lemma in_list_In (s : string) (l : list string) : in_list s l = true -> In s l.
Proof.
  unfold in_list. rewrite existsb_exists. intros (x & Hx & E).
  apply String.eqb_eq in E. now subst.
Qed.

Lemma synthesis_types_in_vocabulary :
  forallb (fun s : string * Domain * Z * Z =>
             let '(_, d, _, _) := s in
             forallb (fun ty => in_list ty synthesis_vocabulary) (synthesis_types d))
    slots = true.
Proof. vm_compute. reflexivity. Qed.

(** C6. In every run, every row's synthesis_type cell is the entry of the
    owning domain's synthesis-type list at index (position within the
    domain) mod (length of that list), and it is one of the ten tags fm,
    subtractive, wavetable, granular, physical_modeling, additive,
    sample_based, feedback, noise, hybrid. *)
Theorem C6_synthesis_type_cycled_in_vocabulary (t : list Z) (old : list (list pyval)) :
  every_row t old
    (fun domain_name d i idx row =>
       exists synth,
         nth_error row 3 = Some (PStr synth) /\
         nth_error (synthesis_types d) (Z.to_nat (i mod len (synthesis_types d)))
           = Some synth /\
         In synth synthesis_vocabulary)
  /\ List.length synthesis_vocabulary = 10%nat
  /\ NoDup synthesis_vocabulary.
Proof.
  split; [|split].
  - apply every_row_intro. intros domain_name d i idx row Hin Hshape.
    destruct Hshape as [? ? ? synth ? ? ? _ _ _ Hsynth _ _ _ _ _].
    exists synth. split; [reflexivity|]. split; [exact Hsynth|].
    pose proof (slots_check _ _ synthesis_types_in_vocabulary Hin) as Hvoc.
    cbn beta iota in Hvoc. rewrite forallb_forall in Hvoc.
    apply in_list_In, Hvoc. eapply nth_error_In, Hsynth.
  - reflexivity.
  - repeat constructor; cbn [In]; intuition discriminate.
Qed.

(** ** Weirdness *)

Lemma experimental_slots :
  forallb (fun s : string * Domain * Z * Z =>
             let '(domain_name, _, _, idx) := s in
             Bool.eqb (contains "experimental" domain_name)
                      (String.eqb domain_name "experimental")
             && Bool.eqb (String.eqb domain_name "experimental")
                         ((801 <=? idx) && (idx <=? 900)))
    slots = true.
Proof. vm_compute. reflexivity. Qed.

(** C4. In every run, the rows owned by the domain "experimental" are exactly
    those with ids 801 through 900, and their weirdness_level lies in
    [6,10]; the weirdness_level of every other row lies in [2,9].  The law
    of the draw is uniform: each of 6..10 has probability 1/5 under the
    "experimental" key, and each of 2..9 has probability 1/8 under any other
    key of the table. *)
Theorem C4_weirdness_by_domain (t : list Z) (old : list (list pyval)) :
  every_row t old
    (fun domain_name d i idx row =>
       exists weird,
         nth_error row 6 = Some (PInt weird) /\
         (domain_name = "experimental" <-> 801 <= idx <= 900) /\
         (if String.eqb domain_name "experimental" then 6 <= weird <= 10
          else 2 <= weird <= 9))
  /\ Forall
       (fun nd : string * Domain =>
          weirdness_level (m := dist) (fst nd) =
            if String.eqb (fst nd) "experimental"
            then List.map (fun v => (Ok v, 1 # 5)) (py_range 6 11)
            else List.map (fun v => (Ok v, 1 # 8)) (py_range 2 10))
       domains.
Proof.
  split.
  - apply every_row_intro. intros domain_name d i idx row Hin Hshape.
    destruct Hshape as [? ? ? ? ? ? weird _ _ _ _ _ _ _ _ Hweird].
    pose proof (slots_check _ _ experimental_slots Hin) as Hchk.
    cbn beta iota in Hchk. apply andb_prop in Hchk as [Hc Hid].
    apply Bool.eqb_prop in Hc. apply Bool.eqb_prop in Hid.
    rewrite Hc in Hweird.
    exists weird. split; [reflexivity|]. split; [|exact Hweird].
    rewrite <- String.eqb_eq, Hid, andb_true_iff, !Z.leb_le. tauto.
  - unfold domains. repeat (constructor; [vm_compute; reflexivity|]). constructor.
Qed.

(** ** Genre tags *)

Lemma split_not_nil (sep : ascii) (s : string) : split sep s <> [].
Proof.
  induction s as [|c s IH]; cbn; [discriminate|].
  destruct (Ascii.eqb c sep); [discriminate|].
  destruct (split sep s); [contradiction|discriminate].
Qed.

Lemma split_plain (sep : ascii) (s : string) :
  has_char sep s = false -> split sep s = [s].
Proof.
  induction s as [|c s IH]; cbn; [reflexivity|].
  intros H. apply orb_false_elim in H as [Hc Hs].
  rewrite Hc, (IH Hs). reflexivity.
Qed.

Lemma split_append (sep : ascii) (s rest : string) :
  has_char sep s = false ->
  split sep (s ++ String sep rest) = s :: split sep rest.
Proof.
  induction s as [|c s IH]; cbn.
  - intros _. now rewrite Ascii.eqb_refl.
  - intros H. apply orb_false_elim in H as [Hc Hs].
    rewrite Hc, (IH Hs). reflexivity.
Qed.

(** Splitting a joined list gives the list back, when it is non-empty and the
    separator occurs in none of its members. *)
Lemma split_join (sep : ascii) (l : list string) :
  l <> [] ->
  Forall (fun s => has_char sep s = false) l ->
  split sep (join (String sep EmptyString) l) = l.
Proof.
  induction l as [|x l IH]; [congruence|].
  intros _ Hall. inversion Hall as [|? ? Hx Hl]; subst.
  destruct l as [|y l].
  - cbn. now apply split_plain.
  - change (join (String sep EmptyString) (x :: y :: l))
      with (x ++ String sep (join (String sep EmptyString) (y :: l))).
    rewrite split_append by exact Hx. f_equal. apply IH; [discriminate|exact Hl].
Qed.

Lemma nodupb_NoDup (l : list string) : nodupb l = true -> NoDup l.
Proof.
  induction l as [|x l IH]; cbn; intros H; constructor;
    apply andb_prop in H as [Hx Hl].
  - intros Hin. apply negb_true_iff in Hx.
    assert (in_list x l = true); [|congruence].
    unfold in_list. apply existsb_exists. exists x. split; [exact Hin|].
    apply String.eqb_refl.
  - now apply IH.
Qed.

Lemma genres_checked :
  forallb (fun s : string * Domain * Z * Z =>
             let '(_, d, _, _) := s in
             (len (genres d) =? 8) && nodupb (genres d)
             && forallb (fun g => negb (has_char ";" g)) (genres d))
    slots = true.
Proof. vm_compute. reflexivity. Qed.

(** C5. In every run, every row's genre_tags cell is the ";"-join of a list
    sampled from the owning domain's genre list, of length
    min(3, length of that list); every genre list has 8 entries (at least
    8), so the cell splits on ";" into exactly 3 strings, pairwise distinct,
    each a member of the owning domain's genre list. *)
Theorem C5_three_distinct_genres (t : list Z) (old : list (list pyval)) :
  every_row t old
    (fun domain_name d i idx row =>
       exists tags picked,
         nth_error row 5 = Some (PStr tags) /\
         tags = join ";" picked /\
         Z.of_nat (List.length picked) = Z.min 3 (len (genres d)) /\
         split ";" tags = picked /\
         List.length (split ";" tags) = 3%nat /\
         NoDup (split ";" tags) /\
         incl (split ";" tags) (genres d))
  /\ Forall (fun nd : string * Domain => 8 <= len (genres (snd nd))) domains.
Proof.
  split.
  - apply every_row_intro. intros domain_name d i idx row Hin Hshape.
    destruct Hshape as [? ? ? ? ? picked ? _ _ _ _ _ Hlen Hincl Hnodup _].
    pose proof (slots_check _ _ genres_checked Hin) as Hchk.
    cbn beta iota in Hchk.
    apply andb_prop in Hchk as [Hchk Hsemi]. apply andb_prop in Hchk as [H8 Hnd].
    apply Z.eqb_eq in H8. apply nodupb_NoDup in Hnd.
    rewrite H8 in Hlen. change (Z.to_nat (Z.min 3 8)) with 3%nat in Hlen.
    assert (Hsplit : split ";" (join ";" picked) = picked).
    { apply split_join.
      - intros ->. discriminate.
      - apply Forall_forall. intros g Hg. rewrite forallb_forall in Hsemi.
        apply negb_true_iff, Hsemi, Hincl, Hg. }
    exists (join ";" picked), picked. rewrite Hsplit, H8, Hlen.
    repeat (split; [reflexivity|]). split; [now apply Hnodup|exact Hincl].
  - unfold domains. repeat (constructor; [vm_compute; discriminate|]). constructor.
Qed.

(** ** Descriptions *)

Lemma templates_distinct :
  forallb (fun nd : string * Domain =>
             forallb (fun prefix => nodupb (templates prefix)) (prefixes (snd nd)))
    domains = true.
Proof. vm_compute. reflexivity. Qed.

Lemma ascii_code_range (c : ascii) : 0 <= ascii_code c < 256.
Proof. unfold ascii_code. pose proof (nat_ascii_bounded c). lia. Qed.

Lemma ascii_chr_code (c : ascii) : ascii_chr (ascii_code c) = c.
Proof. unfold ascii_chr, ascii_code. rewrite Nat2Z.id. apply ascii_nat_embedding. Qed.

Lemma ascii_code_chr (n : Z) : 0 <= n < 256 -> ascii_code (ascii_chr n) = n.
Proof.
  intros H. unfold ascii_chr, ascii_code. rewrite nat_ascii_embedding by lia. lia.
Qed.

Lemma byte_code (c : ascii) (n : Z) (rest : string) :
  ascii_code c = n -> String c rest = byte n rest.
Proof. intros <-. unfold byte. now rewrite ascii_chr_code. Qed.

Lemma lower_plain (c : ascii) (s : string) :
  ascii_code c < 65 \/ 90 < ascii_code c -> ascii_code c <> 195 ->
  lower (String c s) = String c (lower s).
Proof.
  intros H1 H2. cbn [lower]. cbv zeta.
  replace ((65 <=? ascii_code c) && (ascii_code c <=? 90)) with false by
    (symmetry; apply andb_false_iff; rewrite Z.leb_gt, Z.leb_gt; lia).
  apply Z.eqb_neq in H2. now rewrite H2.
Qed.

Lemma lower_exact_upto (n : nat) :
  forall (s : string) (cps : list Z),
    (String.length s <= n)%nat ->
    utf8_decode s = Some cps ->
    Forall (fun cp => 0 <= cp < 256) cps ->
    lower s = utf8_encode (List.map cp_lower cps).
Proof.
  induction n as [|n IH]; intros s cps Hlen Hdec Hcps.
  - destruct s; [|cbn in Hlen; lia]. cbn in Hdec. inversion Hdec. reflexivity.
  - destruct s as [|c0 s1]; [cbn in Hdec; inversion Hdec; reflexivity|].
    cbn [String.length] in Hlen. cbn [utf8_decode] in Hdec. cbv zeta in Hdec.
    pose proof (ascii_code_range c0) as R0.
    destruct (Z.ltb_spec (ascii_code c0) 128) as [Hlt|Hge].
    + destruct (utf8_decode s1) as [cps1|] eqn:E1; [|discriminate].
      cbn in Hdec. inversion Hdec; subst cps. clear Hdec.
      inversion Hcps as [|? ? _ Hcps1]; subst.
      specialize (IH s1 cps1 ltac:(lia) E1 Hcps1).
      cbn [List.map utf8_encode fold_right]. fold (utf8_encode (List.map cp_lower cps1)).
      rewrite <- IH. unfold utf8_encode_cp, cp_lower.
      cbn [lower]. cbv zeta.
      destruct ((65 <=? ascii_code c0) && (ascii_code c0 <=? 90)) eqn:Ecap.
      * apply andb_prop in Ecap as [Ha Hb]. apply Z.leb_le in Ha, Hb.
        replace ((192 <=? ascii_code c0) && (ascii_code c0 <=? 222)
                 && negb (ascii_code c0 =? 215)) with false
          by (symmetry; rewrite andb_false_iff, andb_false_iff, Z.leb_gt; left; left; lia).
        cbn [orb].
        replace (ascii_code c0 + 32 <? 128) with true by (symmetry; apply Z.ltb_lt; lia).
        reflexivity.
      * replace ((192 <=? ascii_code c0) && (ascii_code c0 <=? 222)
                 && negb (ascii_code c0 =? 215)) with false
          by (symmetry; rewrite andb_false_iff, andb_false_iff, Z.leb_gt; left; left; lia).
        cbn [orb].
        replace (ascii_code c0 <? 128) with true by (symmetry; apply Z.ltb_lt; lia).
        replace (ascii_code c0 =? 195) with false by (symmetry; apply Z.eqb_neq; lia).
        unfold byte. now rewrite ascii_chr_code.
    + destruct ((194 <=? ascii_code c0) && (ascii_code c0 <=? 223)) eqn:E2.
      * apply andb_prop in E2 as [Ha Hb]. apply Z.leb_le in Ha, Hb.
        destruct s1 as [|c1 s2]; [discriminate|].
        unfold continuation in Hdec. cbv zeta in Hdec.
        pose proof (ascii_code_range c1) as R1.
        destruct ((128 <=? ascii_code c1) && (ascii_code c1 <=? 191)) eqn:E3;
          [|discriminate].
        apply andb_prop in E3 as [Hc Hd]. apply Z.leb_le in Hc, Hd.
        destruct (utf8_decode s2) as [cps2|] eqn:Edec2; [|discriminate].
        cbn in Hdec. inversion Hdec; subst cps. clear Hdec.
        inversion Hcps as [|? ? Hcp Hcps2]; subst.
        cbn [String.length] in Hlen.
        specialize (IH s2 cps2 ltac:(lia) Edec2 Hcps2).
        cbn [List.map utf8_encode fold_right]. fold (utf8_encode (List.map cp_lower cps2)).
        rewrite <- IH.
        set (k0 := ascii_code c0) in *. set (k1 := ascii_code c1) in *.
        set (cp := (k0 - 192) * 64 + (k1 - 128)) in *.
        assert (Hk0 : k0 = 194 \/ k0 = 195) by (unfold cp in Hcp; lia).
        destruct Hk0 as [Hk0|Hk0].
        -- assert (Hcpv : cp = k1) by (unfold cp; lia).
           rewrite lower_plain by (fold k0; lia).
           rewrite lower_plain by (fold k1; lia).
           unfold cp_lower.
           replace ((65 <=? cp) && (cp <=? 90)) with false
             by (symmetry; rewrite andb_false_iff, Z.leb_gt, Z.leb_gt; lia).
           replace ((192 <=? cp) && (cp <=? 222) && negb (cp =? 215)) with false
             by (symmetry; rewrite andb_false_iff, andb_false_iff, Z.leb_gt; left; left; lia).
           cbn [orb]. unfold utf8_encode_cp.
           replace (cp <? 128) with false by (symmetry; apply Z.ltb_ge; lia).
           replace (cp <? 2048) with true by (symmetry; apply Z.ltb_lt; lia).
           rewrite (byte_code c0 (192 + cp / 64)).
           2:{ fold k0. rewrite Hcpv. assert (k1 / 64 = 2) by (symmetry; apply Z.div_unique with (r := k1 - 128); lia). lia. }
           rewrite (byte_code c1 (128 + cp mod 64)).
           2:{ fold k1. rewrite Hcpv. assert (k1 mod 64 = k1 - 128) by (symmetry; apply Z.mod_unique with (q := 2); lia). lia. }
           reflexivity.
        -- assert (Hcpv : cp = k1 + 64) by (unfold cp; lia).
           cbn [lower]. cbv zeta. fold k0 k1.
           replace ((65 <=? k0) && (k0 <=? 90)) with false
             by (symmetry; rewrite andb_false_iff, Z.leb_gt, Z.leb_gt; lia).
           replace (k0 =? 195) with true by (symmetry; apply Z.eqb_eq; lia).
           unfold cp_lower.
           replace ((65 <=? cp) && (cp <=? 90)) with false
             by (symmetry; rewrite andb_false_iff, Z.leb_gt, Z.leb_gt; lia).
           cbn [orb].
           replace ((192 <=? cp) && (cp <=? 222) && negb (cp =? 215))
             with ((128 <=? k1) && (k1 <=? 158) && negb (k1 =? 151)).
           2:{ rewrite Hcpv. f_equal; [f_equal|f_equal].
               - apply eq_true_iff_eq. rewrite !Z.leb_le. lia.
               - apply eq_true_iff_eq. rewrite !Z.leb_le. lia.
               - apply eq_true_iff_eq. rewrite !Z.eqb_eq. lia. }
           destruct ((128 <=? k1) && (k1 <=? 158) && negb (k1 =? 151)) eqn:Ecap.
           ++ apply andb_prop in Ecap as [Ecap _]. apply andb_prop in Ecap as [_ He].
              apply Z.leb_le in He. unfold utf8_encode_cp.
              replace (cp + 32 <? 128) with false by (symmetry; apply Z.ltb_ge; lia).
              replace (cp + 32 <? 2048) with true by (symmetry; apply Z.ltb_lt; lia).
              rewrite (byte_code c0 (192 + (cp + 32) / 64)).
              2:{ fold k0. assert ((cp + 32) / 64 = 3) by (symmetry; apply Z.div_unique with (r := cp + 32 - 192); lia). lia. }
              assert (Hm : 128 + (cp + 32) mod 64 = k1 + 32).
              { assert ((cp + 32) mod 64 = cp + 32 - 192) by (symmetry; apply Z.mod_unique with (q := 3); lia). lia. }
              rewrite Hm. reflexivity.
           ++ unfold utf8_encode_cp.
              replace (cp <? 128) with false by (symmetry; apply Z.ltb_ge; lia).
              replace (cp <? 2048) with true by (symmetry; apply Z.ltb_lt; lia).
              rewrite (byte_code c0 (192 + cp / 64)).
              2:{ fold k0. assert (cp / 64 = 3) by (symmetry; apply Z.div_unique with (r := cp - 192); lia). lia. }
              rewrite (byte_code c1 (128 + cp mod 64)).
              2:{ fold k1. assert (cp mod 64 = cp - 192) by (symmetry; apply Z.mod_unique with (q := 3); lia). lia. }
              reflexivity.
      * exfalso.
        destruct ((224 <=? ascii_code c0) && (ascii_code c0 <=? 239)) eqn:E3.
        -- destruct s1 as [|c1 [|c2 s3]]; try discriminate.
           destruct (continuation c1); [|discriminate].
           destruct (continuation c2); [|discriminate].
           match type of Hdec with (if ?b then _ else _) = _ => destruct b eqn:Eb end;
             [|discriminate].
           destruct (utf8_decode s3); [|discriminate].
           cbn in Hdec. inversion Hdec; subst cps.
           inversion Hcps as [|? ? Hcp _]; subst.
           apply andb_prop in Eb as [Eb _]. apply Z.leb_le in Eb. lia.
        -- destruct ((240 <=? ascii_code c0) && (ascii_code c0 <=? 244)) eqn:E4;
             [|discriminate].
           destruct s1 as [|c1 [|c2 [|c3 s4]]]; try discriminate.
           destruct (continuation c1); [|discriminate].
           destruct (continuation c2); [|discriminate].
           destruct (continuation c3); [|discriminate].
           match type of Hdec with (if ?b then _ else _) = _ => destruct b eqn:Eb end;
             [|discriminate].
           destruct (utf8_decode s4); [|discriminate].
           cbn in Hdec. inversion Hdec; subst cps.
           inversion Hcps as [|? ? Hcp _]; subst.
           apply andb_prop in Eb as [Eb _]. apply Z.leb_le in Eb. lia.
Qed.

(** On a string of code points below U+0100, [lower] is [str.lower()]. *)
Lemma lower_exact (s : string) (cps : list Z) :
  utf8_decode s = Some cps ->
  Forall (fun cp => 0 <= cp < 256) cps ->
  lower s = utf8_encode (List.map cp_lower cps).
Proof. apply (lower_exact_upto (String.length s)). lia. Qed.

Lemma lower_lowercase_of (s : string) : latin1 s = true -> lowercase_of s (lower s).
Proof.
  unfold latin1, lowercase_of.
  destruct (utf8_decode s) as [cps|] eqn:Hdec; [|discriminate]. intros Hcps.
  assert (Hbelow : Forall (fun cp => 0 <= cp < 256) cps).
  { apply Forall_forall. intros cp Hcp. rewrite forallb_forall in Hcps.
    specialize (Hcps cp Hcp). apply andb_prop in Hcps as [H0 H256].
    apply Z.leb_le in H0. apply Z.ltb_lt in H256. lia. }
  exists cps. split; [reflexivity|]. split; [exact Hbelow|].
  now apply lower_exact.
Qed.

Lemma prefixes_latin1 :
  forallb (fun nd : string * Domain => forallb latin1 (prefixes (snd nd))) domains = true.
Proof. vm_compute. reflexivity. Qed.

Lemma nth_error_map_inv {A B : Type} (f : A -> B) (l : list A) (n : nat) (y : B) :
  nth_error (List.map f l) n = Some y -> exists x, nth_error l n = Some x /\ y = f x.
Proof.
  rewrite nth_error_map. destruct (nth_error l n) as [x|]; [|discriminate].
  intros H. inversion H. now exists x.
Qed.

(** C9. In every run, every row's description cell is one of ten sentences
    made from the row's prefix: template number [j] of the ten fixed
    templates, with the prefix put between its two fixed texts, in its
    original case in two templates (the first and the third) and lower-cased
    in the other eight.  The lower-cased form is [str.lower()] of the prefix,
    stated on its code points.  The ten sentences are pairwise distinct and
    the law of the choice gives each of them probability 1/10; the domain
    name passed to [generate_description] has no influence on the result. *)
Theorem C9_description_uniform_over_ten_templates (t : list Z) (old : list (list pyval)) :
  every_row t old
    (fun domain_name d i idx row =>
       exists prefix lowered desc j before keep_case after,
         nth_error (prefixes d) (Z.to_nat (i mod len (prefixes d))) = Some prefix /\
         lowercase_of prefix lowered /\
         nth_error row 2 = Some (PStr desc) /\
         0 <= j < 10 /\
         nth_error template_parts (Z.to_nat j) = Some (before, keep_case, after) /\
         desc = before ++ (if keep_case : bool then prefix else lowered) ++ after /\
         NoDup (List.map (fill_with prefix lowered) template_parts) /\
         generate_description (m := dist) prefix domain_name =
           List.map (fun part => (Ok (fill_with prefix lowered part), 1 # 10))
             template_parts /\
         (forall (other : string) (w : world),
             generate_description (m := run) prefix other w =
               generate_description (m := run) prefix domain_name w))
  /\ List.length template_parts = 10%nat
  /\ List.map (fun part : string * bool * string => snd (fst part)) template_parts =
       [true; false; true; false; false; false; false; false; false; false].
Proof.
  split; [|split; reflexivity].
  apply every_row_intro. intros domain_name d i idx row Hin Hshape.
  destruct Hshape as [prefix ? desc ? ? ? ? Hprefix _ (j & Hj & Hdesc) _ _ _ _ _ _].
  apply slots_owned in Hin as (Hdom & _).
  pose proof (nth_error_In _ _ Hprefix) as Hmember.
  assert (Hlowered : lowercase_of prefix (lower prefix)).
  { pose proof prefixes_latin1 as Hchk. rewrite forallb_forall in Hchk.
    specialize (Hchk _ Hdom). cbn [snd] in Hchk. rewrite forallb_forall in Hchk.
    apply lower_lowercase_of, Hchk, Hmember. }
  assert (Htemplates : templates prefix =
                       List.map (fill_with prefix (lower prefix)) template_parts)
    by reflexivity.
  assert (Hdistinct : NoDup (templates prefix)).
  { pose proof templates_distinct as Hchk. rewrite forallb_forall in Hchk.
    specialize (Hchk _ Hdom). cbn [snd] in Hchk. rewrite forallb_forall in Hchk.
    apply nodupb_NoDup, Hchk, Hmember. }
  rewrite Htemplates in Hdesc, Hdistinct.
  apply nth_error_map_inv in Hdesc as ([[before keep_case] after] & Hpart & ->).
  exists prefix, (lower prefix), (fill_with prefix (lower prefix) (before, keep_case, after)),
    j, before, keep_case, after.
  split; [exact Hprefix|]. split; [exact Hlowered|]. split; [reflexivity|].
  split; [exact Hj|]. split; [exact Hpart|]. split; [reflexivity|].
  split; [exact Hdistinct|]. split; reflexivity.
Qed.

(** ** Names *)

(** On the generator's grid, [random.random() > 0.5] holds for the floats
    whose numerator exceeds [2 ** 52]. *)
Lemma random_gt_half (r : Z) :
  Qgt_bool (unit_float r) (1 # 2) = (2 ^ 52 <? r mod float_grid).
Proof.
  unfold Qgt_bool, Qle_bool, unit_float. cbn [Qnum Qden].
  change (Z.pos (Z.to_pos float_grid)) with float_grid.
  change float_grid with 9007199254740992.
  change (2 ^ 52) with 4503599627370496.
  destruct (Z.leb_spec (r mod 9007199254740992 * 2) (1 * 9007199254740992));
    destruct (Z.ltb_spec 4503599627370496 (r mod 9007199254740992));
    cbn [negb]; try reflexivity; lia.
Qed.

(** The count behind the law of that comparison: of the [2 ** 53] floats,
    the [2 ** 52 - 1] largest exceed one half. *)
Lemma floats_above_half (k : Z) :
  0 <= k < float_grid ->
  (Qgt_bool (unit_float k) (1 # 2) = true <-> float_grid - floats_above (1 # 2) <= k).
Proof.
  intros Hk. rewrite random_gt_half, Z.mod_small by exact Hk.
  change (floats_above (1 # 2)) with (2 ^ 52 - 1).
  change float_grid with (2 ^ 53) in *.
  rewrite Z.ltb_lt. change (2 ^ 53) with (2 * 2 ^ 52). lia.
Qed.

(** The index draw on a tape and in law: a run draws some index below [n],
    that index has weight [1 / n] in the law, and every index below [n] is
    drawn by some tape. *)
Lemma randbelow_in_law (n : Z) :
  0 < n ->
  (forall w : world,
      exists j, fst (randbelow (m := run) n w) = Ok j /\
                In (Ok j, Qmake 1 (Pos.of_nat (Z.to_nat n))) (randbelow (m := dist) n))
  /\ (forall j, 0 <= j < n -> fst (randbelow (m := run) n (start [j] [])) = Ok j).
Proof.
  intros Hn. split.
  - intros w. cbn [randbelow Random_run Random_dist]. unfold run_randbelow, dist_randbelow.
    destruct (Z.leb_spec n 0); [lia|].
    destruct (next_raw (tape w)) as [r t']. exists (r mod n). split; [reflexivity|].
    pose proof (Z.mod_pos_bound r n Hn) as Hj.
    assert (Hin : In (r mod n) (py_range 0 n)) by (apply py_range_In; lia).
    unfold uniform. destruct (py_range 0 n) as [|x l] eqn:E; [contradiction|].
    rewrite <- E. rewrite py_range_length, Z.sub_0_r.
    apply (in_map (fun a => (Ok a, Qmake 1 (Pos.of_nat (Z.to_nat n))))).
    rewrite E. exact Hin.
  - intros j Hj. cbn. unfold run_randbelow.
    destruct (Z.leb_spec n 0); [lia|]. cbn. now rewrite Z.mod_small.
Qed.

(** The role word a run picks, read off the tape. *)
Lemma role_word_on_tape (w : world) :
  fst (role_word (m := run) w) =
    let '(r, t1) := next_raw (tape w) in
    if Qgt_bool (unit_float r) (1 # 2) then Ok "Synth"
    else Ok (nth (Z.to_nat (fst (next_raw t1) mod 8)) role_words EmptyString).
Proof.
  unfold role_word. cbn. unfold run_bind, run_random_gt.
  destruct (next_raw (tape w)) as [r t1].
  destruct (Qgt_bool (unit_float r) (1 # 2)); [reflexivity|].
  unfold run_randbelow. cbn. destruct (next_raw t1) as [r' t2]. cbn.
  pose proof (Z.mod_pos_bound r' 8 eq_refl) as Hj.
  destruct (yields_getitem role_words (r' mod 8) Hj (set_tape (set_tape w t1) t2))
    as (x & t3 & E & Hx).
  cbn in E. rewrite E. cbn.
  f_equal. symmetry. exact (nth_error_nth role_words (Z.to_nat (r' mod 8)) EmptyString Hx).
Qed.

(** C2, as the code has it.  In every run, every row's name is the row's
    prefix, a space and a role word.  The role word is "Synth" when the
    float drawn exceeds 0.5, which [2 ** 52 - 1] of the [2 ** 53] equally
    likely floats do (probability 1/2 - 2^-53), and otherwise a uniform
    choice among the 8 words Engine, Generator, Oscillator, Filter,
    Processor, Modulator, Resonator, Sequencer: each has probability 1/8 in
    that branch and (2^52 + 1) / 2^56 overall, which is 1/16 + 2^-56. *)
Theorem C2_name_is_prefix_and_role_word (t : list Z) (old : list (list pyval)) :
  every_row t old
    (fun domain_name d i idx row =>
       exists prefix role,
         nth_error (prefixes d) (Z.to_nat (i mod len (prefixes d))) = Some prefix /\
         nth_error row 1 = Some (PStr (prefix ++ " " ++ role)) /\
         In role ("Synth" :: role_words))
  /\ List.length role_words = 8%nat
  /\ NoDup ("Synth" :: role_words)
  /\ (forall w : world,
        fst (role_word (m := run) w) =
          let '(r, t1) := next_raw (tape w) in
          if Qgt_bool (unit_float r) (1 # 2) then Ok "Synth"
          else Ok (nth (Z.to_nat (fst (next_raw t1) mod 8)) role_words EmptyString))
  /\ random_gt (m := dist) (1 # 2) =
       [(Ok true, (2 ^ 52 - 1) # (2 ^ 53)); (Ok false, (2 ^ 52 + 1) # (2 ^ 53))]
  /\ choice (m := dist) role_words = List.map (fun word => (Ok word, 1 # 8)) role_words
  /\ role_word (m := dist) =
       (Ok "Synth", (2 ^ 52 - 1) # (2 ^ 53))
       :: List.map (fun word => (Ok word, (2 ^ 52 + 1) # (2 ^ 56))) role_words
  /\ Pr (role_word (m := dist)) (String.eqb "Synth") = (2 ^ 52 - 1) # (2 ^ 53)
  /\ Forall (fun word => Pr (role_word (m := dist)) (String.eqb word)
                         = (2 ^ 52 + 1) # (2 ^ 56)) role_words.
Proof.
  split.
  { apply every_row_intro. intros domain_name d i idx row Hin Hshape.
    destruct Hshape as [prefix role ? ? ? ? ? Hprefix Hrole _ _ _ _ _ _ _].
    exists prefix, role. split; [exact Hprefix|]. split; [reflexivity|].
    destruct Hrole as [->|Hrole]; [now left|now right]. }
  split; [reflexivity|].
  split; [apply nodupb_NoDup; reflexivity|].
  split; [exact role_word_on_tape|].
  split; [vm_compute; reflexivity|].
  split; [vm_compute; reflexivity|].
  split; [vm_compute; reflexivity|].
  split; [vm_compute; reflexivity|].
  unfold role_words. repeat (constructor; [vm_compute; reflexivity|]). constructor.
Qed.

(** C2, as stated, fails: the [else] branch chooses among 8 words, not 7
    (the tape [0; 7] makes the role word "Sequencer", the eighth), so the
    probability of "Engine" is not 1/14; and the strict comparison of a
    53-bit float with 0.5 does not have probability exactly 1/2. *)
Lemma C2_counterexample :
  List.length role_words <> 7%nat /\
  fst (role_word (m := run) (start [0; 7] [])) = Ok "Sequencer" /\
  nth_error role_words 7 = Some "Sequencer" /\
  ~ Qeq (Pr (role_word (m := dist)) (String.eqb "Engine")) (1 # 14) /\
  ~ Qeq (Pr (role_word (m := dist)) (String.eqb "Synth")) (1 # 2).
Proof.
  split; [vm_compute; discriminate|].
  split; [vm_compute; reflexivity|].
  split; [reflexivity|].
  split; vm_compute; discriminate.
Qed.

(** ** Totality of row assembly *)

(** C10. For every domain of the table and every position of its range, the
    prefix list and the synthesis-type list are non-empty, both modulo
    indices are in bounds, the sample size min(3, length of the genre list)
    is between 0 and the length of the genre list, and from every world the
    row assembly returns a row without raising; the positions visited are
    those of the ids 1..1000. *)
Theorem C10_row_assembly_total :
  Forall
    (fun nd : string * Domain =>
       let d := snd nd in
       prefixes d <> [] /\ synthesis_types d <> [] /\
       0 <= Z.min 3 (len (genres d)) <= len (genres d) /\
       Forall
         (fun p : Z * Z =>
            let '(i, idx) := p in
            0 <= i mod len (prefixes d) < len (prefixes d) /\
            0 <= i mod len (synthesis_types d) < len (synthesis_types d) /\
            forall w : world,
              exists row w',
                assemble_row (m := run) (fst nd) (prefixes d) (synthesis_types d) (genres d) i idx w
                  = (Ok row, w'))
         (enumerate (py_range (fst (range d)) (snd (range d) + 1))))
    domains
  /\ List.map slot_id slots = py_range 1 1001.
Proof.
  split; [|exact slots_ids].
  apply Forall_forall. intros [domain_name d] Hin. cbn [fst snd].
  pose proof domains_well_formed as Hwf. rewrite forallb_forall in Hwf.
  specialize (Hwf _ Hin). cbn [snd] in Hwf.
  apply well_formed_spec in Hwf as (Hp & Hs & Hg).
  pose proof (len_pos _ Hp) as Hp'. pose proof (len_pos _ Hs) as Hs'.
  split; [exact Hp|]. split; [exact Hs|].
  split; [unfold len; lia|].
  apply Forall_forall. intros [i idx] _.
  split; [apply Z.mod_pos_bound; lia|].
  split; [apply Z.mod_pos_bound; lia|].
  intros w.
  destruct (yields_assemble_row domain_name d i idx Hp Hs Hg w) as (row & t' & E & _).
  eauto.
Qed.

(** ** Determinism in the draws *)

Lemma window_le (k : nat) :
  forall (n : nat) (t1 t2 : list Z),
    (k <= n)%nat -> window n t1 = window n t2 -> window k t1 = window k t2.
Proof.
  induction k as [|k IH]; intros n t1 t2 Hle H; [reflexivity|].
  destruct n as [|n]; [lia|]. cbn [window] in *.
  injection H as Hhead Htail. rewrite Hhead. f_equal.
  apply (IH n); [lia|exact Htail].
Qed.

Lemma reads_ret {A : Type} (a : A) : reads (ret a) 0.
Proof. intros w1 w2 k Hw Ho. cbn. auto. Qed.

Lemma reads_raise {A : Type} (e : exn) : reads (raise e : run A) 0.
Proof. intros w1 w2 k Hw Ho. cbn. auto. Qed.

Lemma reads_more {A : Type} (c : run A) (n n' : nat) :
  (n <= n')%nat -> reads c n -> reads c n'.
Proof.
  intros Hle Hc w1 w2 k Hw Ho.
  destruct (Hc w1 w2 (n' - n + k)%nat) as (H1 & H2 & H3); [|exact Ho|].
  - now replace (n + (n' - n + k))%nat with (n' + k)%nat by lia.
  - split; [exact H1|]. split; [exact H2|].
    apply (window_le k (n' - n + k)); [lia|exact H3].
Qed.

Lemma reads_bind {A B : Type} (c : run A) (f : A -> run B) (a b : nat) :
  reads c a -> (forall x, reads (f x) b) -> reads (bind c f) (a + b).
Proof.
  intros Hc Hf w1 w2 k Hw Ho. cbn. unfold run_bind.
  destruct (Hc w1 w2 (b + k)%nat) as (H1 & H2 & H3); [|exact Ho|].
  - now rewrite Nat.add_assoc.
  - destruct (c w1) as [o1 w1'], (c w2) as [o2 w2']. cbn [fst snd] in *. subst o2.
    destruct o1 as [x| |].
    + apply Hf; assumption.
    + cbn. split; [reflexivity|]. split; [exact H2|].
      apply (window_le k (b + k)); [lia|exact H3].
    + cbn. split; [reflexivity|]. split; [exact H2|].
      apply (window_le k (b + k)); [lia|exact H3].
Qed.

Lemma reads_random_gt (t : Q) : reads (random_gt t) 1.
Proof.
  intros w1 w2 k Hw Ho. cbn in *. unfold run_random_gt.
  injection Hw as Hhead Htail.
  destruct (next_raw (tape w1)) as [r1 t1], (next_raw (tape w2)) as [r2 t2].
  cbn in *. subst r2. auto.
Qed.

Lemma reads_randbelow (n : Z) : reads (randbelow n) 1.
Proof.
  intros w1 w2 k Hw Ho. cbn [randbelow Random_run]. unfold run_randbelow.
  destruct (n <=? 0).
  - cbn. split; [reflexivity|]. split; [exact Ho|].
    apply (window_le k (1 + k)); [lia|exact Hw].
  - cbn in Hw. injection Hw as Hhead Htail.
    destruct (next_raw (tape w1)) as [r1 t1], (next_raw (tape w2)) as [r2 t2].
    cbn in *. subst r2. auto.
Qed.

Lemma reads_py_mod (a b : Z) : reads (py_mod a b) 0.
Proof. unfold py_mod. destruct (b =? 0); [apply reads_raise|apply reads_ret]. Qed.

Lemma reads_getitem {A : Type} (l : list A) (k : Z) : reads (getitem l k) 0.
Proof.
  unfold getitem. cbv zeta.
  destruct (_ <? 0); [apply reads_raise|].
  destruct (nth_error l _); [apply reads_ret|apply reads_raise].
Qed.

Lemma reads_setitem {A : Type} (l : list A) (k : Z) (x : A) : reads (setitem l k x) 0.
Proof.
  unfold setitem. cbv zeta.
  destruct (_ || _); [apply reads_raise|apply reads_ret].
Qed.

Lemma reads_choice {A : Type} (seq : list A) : reads (choice seq) 1.
Proof.
  unfold choice. destruct (len seq =? 0).
  - apply (reads_more _ 0); [lia|apply reads_raise].
  - apply (reads_bind _ _ 1 0); [apply reads_randbelow|].
    intros j. apply reads_getitem.
Qed.

Lemma reads_randint (a b : Z) : reads (randint a b) 1.
Proof.
  unfold randint. cbv zeta. destruct (0 <? b + 1 - a).
  - apply (reads_bind _ _ 1 0); [apply reads_randbelow|].
    intros j. apply reads_ret.
  - apply (reads_more _ 0); [lia|apply reads_raise].
Qed.

Lemma reads_sample_pool {A : Type} (todo : nat) :
  forall (pool : list A) (n i : Z), reads (sample_pool pool n i todo) todo.
Proof.
  induction todo as [|todo IH]; intros pool n i; cbn [sample_pool].
  - apply reads_ret.
  - apply (reads_bind _ _ 1 todo); [apply reads_randbelow|]. intros j.
    apply (reads_bind _ _ 0 todo); [apply reads_getitem|]. intros x.
    apply (reads_bind _ _ 0 todo); [apply reads_getitem|]. intros y.
    apply (reads_bind _ _ 0 todo); [apply reads_setitem|]. intros pool'.
    replace todo with (todo + 0)%nat at 2 by lia.
    apply reads_bind; [apply IH|]. intros rest. apply reads_ret.
Qed.

(** A sample of at most five items from a population of at most 21 is drawn
    from the pool, one draw per item. *)
Lemma reads_sample {A : Type} (population : list A) (k : Z) :
  len population <= 21 -> k <= 5 -> reads (sample population k) (Z.to_nat k).
Proof.
  intros Hsmall Hk. unfold sample. cbv zeta.
  destruct (negb _).
  - apply (reads_more _ 0); [lia|apply reads_raise].
  - destruct (Z.ltb_spec 5 k); [lia|].
    destruct (Z.leb_spec (len population) 21); [|lia].
    apply reads_sample_pool.
Qed.

Lemma reads_role_word : reads role_word 2.
Proof.
  unfold role_word. apply (reads_bind _ _ 1 1); [apply reads_random_gt|].
  intros [|]; [apply (reads_more _ 0); [lia|apply reads_ret]|apply reads_choice].
Qed.

Lemma reads_generate_description (prefix domain : string) :
  reads (generate_description prefix domain) 1.
Proof. apply reads_choice. Qed.

Lemma reads_genre_tags (genres : list string) :
  len genres <= 21 -> reads (genre_tags genres) 3.
Proof.
  intros Hsmall. unfold genre_tags.
  apply (reads_bind _ _ 3 0); [|intros picked; apply reads_ret].
  apply (reads_more _ (Z.to_nat (Z.min 3 (len genres)))); [lia|].
  apply reads_sample; [exact Hsmall|lia].
Qed.

Lemma reads_weirdness_level (domain_name : string) :
  reads (weirdness_level domain_name) 1.
Proof. unfold weirdness_level. destruct (negb _); apply reads_randint. Qed.

(** A row is a function of eight draws at most: the float and the role word,
    the template, the feature, three genre positions and the weirdness. *)
Lemma reads_assemble_row (domain_name : string) (prefixes synth_types genres : list string)
    (i idx : Z) :
  len genres <= 21 ->
  reads (assemble_row domain_name prefixes synth_types genres i idx) 8.
Proof.
  intros Hsmall. unfold assemble_row.
  apply (reads_bind _ _ 0 8); [apply reads_py_mod|]. intros p.
  apply (reads_bind _ _ 0 8); [apply reads_getitem|]. intros prefix.
  apply (reads_bind _ _ 2 6); [apply reads_role_word|]. intros role.
  apply (reads_bind _ _ 1 5); [apply reads_generate_description|]. intros desc.
  apply (reads_bind _ _ 0 5); [apply reads_py_mod|]. intros s.
  apply (reads_bind _ _ 0 5); [apply reads_getitem|]. intros synth_type.
  apply (reads_bind _ _ 1 4); [apply reads_choice|]. intros feature.
  apply (reads_bind _ _ 3 1); [now apply reads_genre_tags|]. intros genre.
  apply (reads_bind _ _ 1 0); [apply reads_weirdness_level|]. intros weirdness.
  apply reads_ret.
Qed.

Lemma reads_writerow (row : list pyval) : reads (writerow row) 0.
Proof.
  intros w1 w2 k Hw [Hf Hc]. cbn in *. unfold same_output. cbn.
  rewrite Hf, Hc. auto.
Qed.

Lemma reads_print (s : string) : reads (print s) 0.
Proof.
  intros w1 w2 k Hw [Hf Hc]. cbn in *. unfold same_output. cbn.
  rewrite Hf, Hc. auto.
Qed.

Lemma reads_for_each {A : Type} (body : A -> run unit) (b : nat) (l : list A) :
  (forall x, In x l -> reads (body x) b) ->
  reads (for_each l body) (List.length l * b).
Proof.
  induction l as [|x l IH]; intros Hbody; cbn [for_each List.length Nat.mul].
  - apply reads_ret.
  - apply reads_bind; [apply Hbody; now left|].
    intros _. apply IH. intros y Hy. apply Hbody. now right.
Qed.

Lemma domains_hundred_ids :
  forallb (fun nd : string * Domain =>
             Nat.eqb (List.length (enumerate (py_range (fst (range (snd nd)))
                                                       (snd (range (snd nd)) + 1))))
                     100)
    domains = true.
Proof. vm_compute. reflexivity. Qed.

Lemma reads_domain_rows (domain_name : string) (d : Domain) :
  In (domain_name, d) domains -> reads (domain_rows domain_name d) (100 * 8).
Proof.
  intros Hin.
  pose proof domains_well_formed as Hwf. rewrite forallb_forall in Hwf.
  specialize (Hwf _ Hin). cbn [snd] in Hwf.
  apply well_formed_spec in Hwf as (_ & _ & Hg).
  pose proof domains_hundred_ids as Hlen. rewrite forallb_forall in Hlen.
  specialize (Hlen _ Hin). cbn [snd] in Hlen. apply Nat.eqb_eq in Hlen.
  unfold domain_rows. destruct (range d) as [start stop]. cbn [fst snd] in Hlen.
  change (100 * 8)%nat with (100 * 8)%nat. rewrite <- Hlen.
  apply reads_for_each. intros [i idx] _.
  apply (reads_bind _ _ 8 0); [now apply reads_assemble_row|].
  intros row. apply reads_writerow.
Qed.

Lemma reads_all_domains :
  reads (for_each domains (fun '(domain_name, domain) => domain_rows domain_name domain))
    draw_budget.
Proof.
  change draw_budget with (List.length domains * (100 * 8))%nat.
  apply reads_for_each. intros [domain_name d] Hin. now apply reads_domain_rows.
Qed.

(** C8. The output is a function of the draws: two runs whose generators
    deliver the same first 8000 raw draws (eight per row at most, at the
    documented random-choice points) end the same way, write the same rows,
    hence the same bytes, and print the same line, whatever the file held
    before either run.  The table is walked in declaration order in both. *)
Theorem C8_output_determined_by_draws (t1 t2 : list Z) (old1 old2 : list (list pyval)) :
  window draw_budget t1 = window draw_budget t2 ->
  fst (generate t1 old1) = fst (generate t2 old2) /\
  csv_file (snd (generate t1 old1)) = csv_file (snd (generate t2 old2)) /\
  file_text (csv_file (snd (generate t1 old1))) =
    file_text (csv_file (snd (generate t2 old2))) /\
  console (snd (generate t1 old1)) = console (snd (generate t2 old2)).
Proof.
  intros Hw.
  assert (Hrest : reads (writerow header ;;
                         for_each domains (fun '(domain_name, domain) =>
                                             domain_rows domain_name domain) ;;
                         print completion_message) draw_budget).
  { apply (reads_bind _ _ 0 draw_budget); [apply reads_writerow|]. intros _.
    apply (reads_bind _ _ draw_budget 0); [apply reads_all_domains|]. intros _.
    apply reads_print. }
  destruct (Hrest {| tape := t1; csv_file := []; console := [] |}
                  {| tape := t2; csv_file := []; console := [] |} 0%nat)
    as (Hout & [Hfile Hcons] & _).
  - exact Hw.
  - split; reflexivity.
  - split; [exact Hout|]. split; [exact Hfile|].
    split; [exact (f_equal file_text Hfile)|exact Hcons].
Qed.

(** Two generators that differ only after their common draws, and two
    different previous contents of the file. *)
Lemma C8_witness :
  window draw_budget [2 ^ 53 - 1; 3; 5] = window draw_budget [2 ^ 53 - 1; 3; 5; 0; 0] /\
  (fst (generate [2 ^ 53 - 1; 3; 5] []) =
     fst (generate [2 ^ 53 - 1; 3; 5; 0; 0] [[PStr "stale"]]) /\
   csv_file (snd (generate [2 ^ 53 - 1; 3; 5] [])) =
     csv_file (snd (generate [2 ^ 53 - 1; 3; 5; 0; 0] [[PStr "stale"]])) /\
   file_text (csv_file (snd (generate [2 ^ 53 - 1; 3; 5] []))) =
     file_text (csv_file (snd (generate [2 ^ 53 - 1; 3; 5; 0; 0] [[PStr "stale"]]))) /\
   console (snd (generate [2 ^ 53 - 1; 3; 5] [])) =
     console (snd (generate [2 ^ 53 - 1; 3; 5; 0; 0] [[PStr "stale"]]))).
Proof.
  split.
  - vm_compute. reflexivity.
  - apply C8_output_determined_by_draws. vm_compute. reflexivity.
Defined.

(** ** The text of the file *)

Lemma quote_field_plain (s : string) : plain s = true -> quote_field s = s.
Proof.
  unfold plain, quote_field. intros H. apply negb_true_iff in H. now rewrite H.
Qed.

Lemma needs_quotes_append (a b : string) :
  needs_quotes (a ++ b) = needs_quotes a || needs_quotes b.
Proof.
  induction a as [|c a IH]; cbn; [reflexivity|]. now rewrite IH, orb_assoc.
Qed.

Lemma plain_append (a b : string) : plain a = true -> plain b = true -> plain (a ++ b) = true.
Proof.
  unfold plain. rewrite needs_quotes_append, negb_orb. intros -> ->. reflexivity.
Qed.

Lemma plain_join (sep : string) (l : list string) :
  plain sep = true -> Forall (fun s => plain s = true) l -> plain (join sep l) = true.
Proof.
  intros Hsep H. induction H as [|x l Hx Hl IH]; [reflexivity|].
  destruct l as [|y l]; [exact Hx|].
  change (join sep (x :: y :: l)) with (x ++ sep ++ join sep (y :: l)).
  now repeat apply plain_append.
Qed.

Lemma csv_record_plain (row : list pyval) :
  (2 <= List.length row)%nat ->
  Forall (fun v => plain (str v) = true) row ->
  csv_record row = plain_record row.
Proof.
  intros Hlen Hall. unfold csv_record, plain_record. cbv zeta.
  assert (E : List.map (fun v => quote_field (str v)) row = List.map str row).
  { apply map_ext_in. intros v Hv. rewrite Forall_forall in Hall.
    now apply quote_field_plain, Hall. }
  rewrite E. destruct row as [|a [|b row]]; cbn in Hlen; try lia.
  cbn [List.map]. destruct (str a); reflexivity.
Qed.

Lemma tables_plain :
  forallb (fun nd : string * Domain =>
             forallb (fun prefix => plain prefix && forallb plain (templates prefix))
                     (prefixes (snd nd))
             && forallb plain (synthesis_types (snd nd))
             && forallb plain (genres (snd nd)))
    domains
  && forallb plain features && forallb plain ("Synth" :: role_words)
  && forallb (fun s : string * Domain * Z * Z => plain (str_of_int (slot_id s))) slots
  && forallb (fun w => plain (str_of_int w)) (py_range 2 11) = true.
Proof. vm_compute. reflexivity. Qed.

(** No cell of any row needs quoting. *)
Lemma row_shape_plain (domain_name : string) (d : Domain) (i idx : Z) (row : list pyval) :
  In (domain_name, d, i, idx) slots ->
  row_shape domain_name d i idx row ->
  List.length row = 7%nat /\ Forall (fun v => plain (str v) = true) row.
Proof.
  intros Hin Hshape.
  pose proof tables_plain as H.
  apply andb_prop in H as [H Hweird]. apply andb_prop in H as [H Hids].
  apply andb_prop in H as [H Hroles]. apply andb_prop in H as [Hdoms Hfeat].
  rewrite forallb_forall in Hweird, Hids, Hroles, Hdoms, Hfeat.
  pose proof (slots_owned _ _ _ _ Hin) as (Hdom & _).
  specialize (Hdoms _ Hdom). cbn [snd] in Hdoms.
  apply andb_prop in Hdoms as [Hdoms Hgen]. apply andb_prop in Hdoms as [Hpre Hsyn].
  rewrite forallb_forall in Hgen, Hpre, Hsyn.
  specialize (Hids _ Hin). cbn [slot_id snd] in Hids.
  destruct Hshape as [prefix role desc synth feature picked weird
                        Hprefix Hrole (j & _ & Hdesc) Hsynth Hfeature _ Hincl _ Hrange].
  split; [reflexivity|].
  specialize (Hpre _ (nth_error_In _ _ Hprefix)).
  apply andb_prop in Hpre as [Hp Htmpl]. rewrite forallb_forall in Htmpl.
  repeat constructor; cbn [str].
  - exact Hids.
  - apply plain_append; [exact Hp|]. apply plain_append; [reflexivity|].
    apply Hroles. destruct Hrole as [->|Hrole]; [now left|now right].
  - apply Htmpl. eapply nth_error_In, Hdesc.
  - apply Hsyn. eapply nth_error_In, Hsynth.
  - now apply Hfeat.
  - apply plain_join; [reflexivity|]. apply Forall_forall. intros g Hg.
    apply Hgen, Hincl, Hg.
  - apply Hweird, py_range_In. destruct (contains "experimental" domain_name); lia.
Qed.

(** *** Reading the text back *)

Lemma append_nil_r (s : string) : s ++ EmptyString = s.
Proof. induction s as [|c s IH]; cbn; [reflexivity|]. now rewrite IH. Qed.

Lemma append_assoc (a b c : string) : (a ++ b) ++ c = a ++ (b ++ c).
Proof. induction a as [|x a IH]; cbn; [reflexivity|]. now rewrite IH. Qed.

Lemma classify_other (c : ascii) : special c = false -> classify c = KOther.
Proof.
  unfold special, classify. intros H.
  apply orb_false_elim in H as [H Hlf]. apply orb_false_elim in H as [H Hcr].
  apply orb_false_elim in H as [Hd Hq]. now rewrite Hd, Hq, Hcr, Hlf.
Qed.

Lemma classify_quote (c : ascii) : Ascii.eqb c quotechar = true -> classify c = KQuote.
Proof. intros H. apply Ascii.eqb_eq in H. subst c. reflexivity. Qed.

Lemma classify_not_quote (c : ascii) :
  Ascii.eqb c quotechar = false -> classify c <> KQuote.
Proof.
  unfold classify. intros H. rewrite H.
  destruct (Ascii.eqb c delimiter), (Ascii.eqb c "013"), (Ascii.eqb c "010");
    discriminate.
Qed.

(** An unquoted run of ordinary characters is taken as it is. *)
Lemma read_plain (s : string) :
  needs_quotes s = false ->
  forall (field : string) (record : list string) (rest : string),
    csv_read InField field record (s ++ rest) = csv_read InField (field ++ s) record rest.
Proof.
  induction s as [|c s IH]; intros Hs field record rest.
  - now rewrite append_nil_r.
  - cbn in Hs. apply orb_false_elim in Hs as [Hc Hs].
    cbn [append csv_read]. rewrite (classify_other c Hc), (IH Hs).
    unfold snoc. now rewrite append_assoc.
Qed.

(** A quoted field is read up to its closing quote, doubled quotes
    collapsing to one. *)
Lemma read_quoted (s : string) :
  forall (field : string) (record : list string) (rest : string),
    csv_read InQuoted field record (double_quotes s ++ String quotechar rest)
    = csv_read QuoteInQuoted (field ++ s) record rest.
Proof.
  induction s as [|c s IH]; intros field record rest.
  - cbn. now rewrite append_nil_r.
  - cbn [double_quotes]. destruct (Ascii.eqb c quotechar) eqn:Hc.
    + cbn [append csv_read]. rewrite (classify_quote c Hc), (IH _).
      unfold snoc. now rewrite append_assoc.
    + cbn [append csv_read]. pose proof (classify_not_quote c Hc) as Hk.
      replace (field ++ String c s) with (snoc field c ++ s)
        by (unfold snoc; now rewrite append_assoc).
      rewrite <- (IH _). destruct (classify c); try reflexivity. contradiction.
Qed.

Lemma read_field_then_delimiter (st : rstate) (s : string) (record : list string)
    (rest : string) :
  field_start st ->
  csv_read st EmptyString record (quote_field s ++ String delimiter rest)
  = csv_read StartField EmptyString (record ++ [s])%list rest.
Proof.
  intros Hst. unfold quote_field. destruct (needs_quotes s) eqn:Hq.
  - cbn [append]. rewrite append_assoc. cbn [append].
    destruct Hst as [-> | ->]; cbn [csv_read];
      change (classify quotechar) with KQuote; cbn iota;
      rewrite read_quoted; reflexivity.
  - destruct s as [|c s].
    + destruct Hst as [-> | ->]; reflexivity.
    + cbn in Hq. apply orb_false_elim in Hq as [Hc Hs].
      cbn [append].
      destruct Hst as [-> | ->]; cbn [csv_read]; rewrite (classify_other c Hc);
        cbn iota; rewrite (read_plain s Hs); reflexivity.
Qed.

Lemma read_field_then_newline (st : rstate) (s : string) (record : list string)
    (rest : string) :
  st = StartField \/ (st = StartRecord /\ quote_field s <> EmptyString) ->
  csv_read st EmptyString record (quote_field s ++ lineterminator ++ rest)
  = option_map (cons (record ++ [s])%list) (csv_read StartRecord EmptyString [] rest).
Proof.
  intros Hst. unfold quote_field in *. destruct (needs_quotes s) eqn:Hq.
  - cbn [append]. rewrite append_assoc. cbn [append].
    assert (Hs : field_start st) by (destruct Hst as [->|[-> _]]; [now right|now left]).
    destruct Hs as [-> | ->]; cbn [csv_read];
      change (classify quotechar) with KQuote; cbn iota;
      rewrite read_quoted; reflexivity.
  - destruct s as [|c s].
    + destruct Hst as [->|[_ Hne]]; [reflexivity|contradiction].
    + cbn in Hq. apply orb_false_elim in Hq as [Hc Hs].
      cbn [append].
      assert (Hst' : field_start st) by (destruct Hst as [->|[-> _]]; [now right|now left]).
      destruct Hst' as [-> | ->]; cbn [csv_read]; rewrite (classify_other c Hc);
        cbn iota; rewrite (read_plain s Hs); reflexivity.
Qed.

Lemma read_fields_tail (fs : list string) :
  fs <> [] ->
  forall (record : list string) (rest : string),
    csv_read StartField EmptyString record
      (join comma (List.map quote_field fs) ++ lineterminator ++ rest)
    = option_map (cons (record ++ fs)%list) (csv_read StartRecord EmptyString [] rest).
Proof.
  induction fs as [|s fs IH]; [congruence|]. intros _ record rest.
  destruct fs as [|s' fs].
  - cbn [List.map join]. apply read_field_then_newline. now left.
  - change (join comma (List.map quote_field (s :: s' :: fs)))
      with (quote_field s ++ comma ++ join comma (List.map quote_field (s' :: fs))).
    rewrite !append_assoc. cbn [comma append].
    rewrite read_field_then_delimiter by now right.
    rewrite IH by discriminate. now rewrite <- app_assoc.
Qed.

Lemma quote_field_empty (s : string) : quote_field s = EmptyString -> s = EmptyString.
Proof.
  unfold quote_field. destruct (needs_quotes s); [discriminate|auto].
Qed.

(** One record written, one record read. *)
Lemma read_record (row : list pyval) (rest : string) :
  csv_read StartRecord EmptyString [] (csv_record row ++ rest)
  = option_map (cons (List.map str row)) (csv_read StartRecord EmptyString [] rest).
Proof.
  unfold csv_record. cbv zeta. fold comma. rewrite <- (map_map str quote_field).
  destruct (List.map str row) as [|s fs]; [reflexivity|].
  destruct fs as [|s' fs].
  - cbn [List.map]. destruct (quote_field s) eqn:Hq.
    + apply quote_field_empty in Hq. subst s. reflexivity.
    + rewrite <- Hq. cbn [join]. rewrite append_assoc.
      apply (read_field_then_newline StartRecord s []). right. split; [reflexivity|].
      rewrite Hq. discriminate.
  - assert (E : match List.map quote_field (s :: s' :: fs) with
                | [EmptyString] => String quotechar (String quotechar lineterminator)
                | _ => join comma (List.map quote_field (s :: s' :: fs)) ++ lineterminator
                end = join comma (List.map quote_field (s :: s' :: fs)) ++ lineterminator).
    { cbn [List.map]. destruct (quote_field s); reflexivity. }
    rewrite E.
    change (join comma (List.map quote_field (s :: s' :: fs)))
      with (quote_field s ++ comma ++ join comma (List.map quote_field (s' :: fs))).
    rewrite !append_assoc. cbn [comma append].
    rewrite read_field_then_delimiter by now left.
    pose proof (read_fields_tail (s' :: fs)) as Htail.
    rewrite Htail by discriminate. reflexivity.
Qed.

Lemma file_text_cons (row : list pyval) (rows : list (list pyval)) :
  file_text (row :: rows) = csv_record row ++ file_text rows.
Proof.
  unfold file_text. cbn [List.map String.concat].
  destruct (List.map csv_record rows) eqn:E; [|reflexivity].
  cbn. now rewrite append_nil_r.
Qed.

(** Whatever the rows, reading the written text gives back, record by
    record and field by field, the text of every cell. *)
Lemma read_file_text (rows : list (list pyval)) :
  read_file (file_text rows) = Some (List.map (List.map str) rows).
Proof.
  unfold read_file. induction rows as [|row rows IH]; [reflexivity|].
  rewrite file_text_cons, read_record, IH. reflexivity.
Qed.

Lemma Forall2_right {A B : Type} (R : A -> B -> Prop) (P : B -> Prop)
    (l : list A) (l' : list B) :
  (forall a b, In a l -> R a b -> P b) -> Forall2 R l l' -> Forall P l'.
Proof.
  intros HR H. induction H as [|a b l l' Hab _ IH]; constructor.
  - apply (HR a); [now left|exact Hab].
  - apply IH. intros a' b' Hin. apply HR. now right.
Qed.

(** C7. In every run the text of the file is the header line
    id,name,description,synthesis_type,key_feature,genre_tags,weirdness_level
    followed by exactly 1000 data records in ascending id order.  Each record
    is its seven cells separated by commas and ended by CR LF; the writer
    quotes a cell only if it holds a comma, a quote or a line break, which no
    cell of this catalogue does; and a standard reader gets back from the
    text exactly the cells written, record by record. *)
Theorem C7_comma_delimited_header_then_rows (t : list Z) (old : list (list pyval)) :
  exists rows,
    csv_file (snd (generate t old)) = header :: rows /\
    file_text (header :: rows) = header_line ++ file_text rows /\
    file_text rows = String.concat EmptyString (List.map plain_record rows) /\
    Forall (fun row => List.length row = 7%nat /\
                       Forall (fun v => needs_quotes (str v) = false) row) rows /\
    read_file (file_text (header :: rows)) =
      Some (["id"; "name"; "description"; "synthesis_type"; "key_feature"; "genre_tags";
             "weirdness_level"] :: List.map (List.map str) rows) /\
    List.length rows = 1000%nat /\
    List.map (fun row => nth_error (List.map str row) 0) rows =
      List.map (fun idx => Some (str_of_int idx)) (py_range 1 1001) /\
    StronglySorted Z.lt (py_range 1 1001).
Proof.
  destruct (generate_rows t old) as (rows & t' & E & Hrows).
  exists rows. rewrite E. cbn [snd csv_file].
  assert (Hplain : Forall (fun row => List.length row = 7%nat /\
                                      Forall (fun v => plain (str v) = true) row) rows).
  { apply (Forall2_right slot_row _ slots); [|exact Hrows].
    intros [[[domain_name d] i] idx] row Hin Hshape.
    exact (row_shape_plain domain_name d i idx row Hin Hshape). }
  assert (Hids : List.map (fun row => nth_error (List.map str row) 0) rows =
                 List.map (fun idx => Some (str_of_int idx)) (py_range 1 1001)).
  { rewrite <- slots_ids, map_map.
    apply (Forall2_map_eq _ _ slot_row); [|exact Hrows].
    intros [[[domain_name d] i] idx] row Hshape. now destruct Hshape. }
  split; [reflexivity|].
  split; [apply file_text_cons|].
  split.
  { unfold file_text. f_equal. apply map_ext_in. intros row Hrow.
    rewrite Forall_forall in Hplain. destruct (Hplain row Hrow) as [Hlen Hcells].
    apply csv_record_plain; [lia|exact Hcells]. }
  split.
  { eapply Forall_impl; [|exact Hplain]. intros row [Hlen Hcells].
    split; [exact Hlen|]. eapply Forall_impl; [|exact Hcells].
    intros v Hv. unfold plain in Hv. now apply negb_true_iff in Hv. }
  split; [now rewrite read_file_text|].
  split.
  { apply (f_equal (@List.length _)) in Hids.
    rewrite !length_map, py_range_length in Hids. exact Hids. }
  split; [exact Hids|apply py_range_sorted].
Qed.

(** * Further properties of the script *)

(** ** Key features *)

(** X1. In every run, every row's key_feature cell is one of the 32 phrases
    of the [features] list, whatever the domain; the phrases are pairwise
    distinct and the law of the choice gives each probability 1/32. *)
Theorem X1_key_feature_uniform_over_features (t : list Z) (old : list (list pyval)) :
  every_row t old
    (fun domain_name d i idx row =>
       exists feature, nth_error row 4 = Some (PStr feature) /\ In feature features)
  /\ List.length features = 32%nat
  /\ NoDup features
  /\ choice (m := dist) features = List.map (fun f => (Ok f, 1 # 32)) features.
Proof.
  split; [|split; [|split]].
  - apply every_row_intro. intros domain_name d i idx row Hin Hshape.
    destruct Hshape as [? ? ? ? feature ? ? _ _ _ _ Hfeature _ _ _ _].
    exists feature. split; [reflexivity|exact Hfeature].
  - reflexivity.
  - apply nodupb_NoDup. vm_compute. reflexivity.
  - vm_compute. reflexivity.
Qed.

(** ** The partition of the ids *)

Lemma chain_end_ge (rs : list (Z * Z)) :
  forall first, chained first rs = true -> first <= chain_end first rs.
Proof.
  induction rs as [|[a b] rs IH]; intros first H; cbn in *; [lia|].
  apply andb_prop in H as [H Hrest]. apply andb_prop in H as [Ha Hab].
  apply Z.eqb_eq in Ha. apply Z.leb_le in Hab. specialize (IH _ Hrest). lia.
Qed.

(** In a chain of ranges, an id between the first start and the last end is
    in exactly one range, and any other id in none. *)
Lemma chained_one_owner (rs : list (Z * Z)) :
  forall first idx,
    chained first rs = true ->
    List.length (List.filter (in_range idx) rs) =
      if (first <=? idx) && (idx <? chain_end first rs) then 1%nat else 0%nat.
Proof.
  induction rs as [|[a b] rs IH]; intros first idx H; cbn [List.filter chain_end].
  - destruct (Z.leb_spec first idx), (Z.ltb_spec idx first); cbn; try reflexivity; lia.
  - cbn in H. apply andb_prop in H as [H Hrest]. apply andb_prop in H as [Ha Hab].
    apply Z.eqb_eq in Ha. apply Z.leb_le in Hab. subst a.
    pose proof (chain_end_ge _ _ Hrest) as Hend.
    specialize (IH (b + 1) idx Hrest). unfold in_range at 1. cbn [fst snd].
    destruct (Z.leb_spec first idx), (Z.leb_spec idx b); cbn [andb];
      cbn [List.length]; rewrite IH;
      destruct (Z.leb_spec (b + 1) idx), (Z.ltb_spec idx (chain_end (b + 1) rs));
      cbn [andb]; try reflexivity; lia.
Qed.

Lemma filter_map_length {A B : Type} (f : A -> B) (p : B -> bool) (l : list A) :
  List.length (List.filter (fun x => p (f x)) l)
  = List.length (List.filter p (List.map f l)).
Proof.
  induction l as [|x l IH]; cbn; [reflexivity|].
  destruct (p (f x)); cbn; now rewrite IH.
Qed.

(** X2. The ranges of the ten domains follow one another from 1 to 1000
    without gap or overlap: every id of 1..1000 lies in the range of exactly
    one domain of the table, and no other integer lies in any. *)
Theorem X2_every_id_has_one_owner (idx : Z) :
  List.length (owners idx) = (if (1 <=? idx) && (idx <=? 1000) then 1%nat else 0%nat)
  /\ chained 1 (List.map (fun nd => range (snd nd)) domains) = true
  /\ chain_end 1 (List.map (fun nd => range (snd nd)) domains) = 1001.
Proof.
  assert (Hchain : chained 1 (List.map (fun nd => range (snd nd)) domains) = true)
    by (vm_compute; reflexivity).
  assert (Hend : chain_end 1 (List.map (fun nd => range (snd nd)) domains) = 1001)
    by (vm_compute; reflexivity).
  split; [|split; assumption].
  unfold owners.
  rewrite (filter_map_length (fun nd : string * Domain => range (snd nd)) (in_range idx)).
  rewrite (chained_one_owner _ 1 idx Hchain), Hend.
  destruct (Z.leb_spec 1 idx), (Z.ltb_spec idx 1001), (Z.leb_spec idx 1000);
    cbn [andb]; try reflexivity; lia.
Qed.

(** ** The balance of synthesis types *)

Lemma Forall2_filter_length {A B : Type} (R : A -> B -> Prop) (q : A -> bool)
    (p : B -> bool) (l : list A) (l' : list B) :
  (forall a b, R a b -> p b = q a) -> Forall2 R l l' ->
  List.length (List.filter p l') = List.length (List.filter q l).
Proof.
  intros HR H. induction H as [|a b l l' Hab _ IH]; [reflexivity|].
  cbn. rewrite (HR a b Hab). destruct (q a); cbn; now rewrite IH.
Qed.

Lemma same_members_Permutation (l l' : list string) :
  same_members l l' = true -> Permutation l l'.
Proof.
  unfold same_members. intros H.
  apply andb_prop in H as [H H4]. apply andb_prop in H as [H H3].
  apply andb_prop in H as [H1 H2].
  rewrite forallb_forall in H3, H4.
  apply NoDup_Permutation; [now apply nodupb_NoDup|now apply nodupb_NoDup|].
  intros x. split; intros Hx; apply in_list_In; auto.
Qed.

Lemma slots_synth_balanced :
  forallb (fun ty => Nat.eqb (List.length (List.filter (slot_synth ty) slots)) 100)
    synthesis_vocabulary = true.
Proof. vm_compute. reflexivity. Qed.

Lemma domains_synth_permuted :
  forallb (fun nd : string * Domain =>
             same_members (synthesis_types (snd nd)) synthesis_vocabulary)
    domains = true.
Proof. vm_compute. reflexivity. Qed.

(** X3. The synthesis_type column does not depend on the draws: every
    domain lists each of the ten tags once, in its own order, and walks its
    list ten times, so in every run each tag labels exactly 100 of the 1000
    rows. *)
Theorem X3_each_synthesis_type_labels_100_rows (t : list Z) (old : list (list pyval)) :
  exists rows,
    csv_file (snd (generate t old)) = header :: rows /\
    Forall (fun ty => List.length (List.filter (has_synth ty) rows) = 100%nat)
      synthesis_vocabulary /\
    Forall (fun nd : string * Domain =>
              Permutation (synthesis_types (snd nd)) synthesis_vocabulary)
      domains.
Proof.
  destruct (generate_rows t old) as (rows & t' & E & Hrows).
  exists rows. rewrite E. split; [reflexivity|]. split.
  - apply Forall_forall. intros ty Hty.
    rewrite (Forall2_filter_length slot_row (slot_synth ty) (has_synth ty) slots rows).
    + pose proof slots_synth_balanced as H. rewrite forallb_forall in H.
      apply Nat.eqb_eq, H, Hty.
    + intros [[[domain_name d] i] idx] row Hshape.
      destruct Hshape as [? ? ? synth ? ? ? _ _ _ Hsynth _ _ _ _ _].
      unfold has_synth, slot_synth. cbn [nth_error]. now rewrite Hsynth.
    + exact Hrows.
  - apply Forall_forall. intros nd Hnd.
    pose proof domains_synth_permuted as H. rewrite forallb_forall in H.
    apply same_members_Permutation, H, Hnd.
Qed.

(** ** The cycle of prefixes *)

Lemma enumerate_from_nth {A : Type} (l : list A) :
  forall (n : Z) (j : nat) (x : A),
    nth_error l j = Some x -> In (n + Z.of_nat j, x) (enumerate_from n l).
Proof.
  induction l as [|y l IH]; intros n [|j] x H; cbn in H; try discriminate.
  - inversion H; subst. left. f_equal. lia.
  - right. replace (n + Z.of_nat (S j)) with (n + 1 + Z.of_nat j) by lia.
    now apply IH.
Qed.

Lemma py_range_nth_some (start stop : Z) (j : nat) :
  Z.of_nat j < stop - start ->
  nth_error (py_range start stop) j = Some (start + Z.of_nat j).
Proof.
  intros Hj. unfold py_range. rewrite nth_error_map.
  assert (Hlt : (j < Z.to_nat (stop - start))%nat) by lia.
  rewrite (nth_error_nth' _ 0%nat) by (now rewrite length_seq).
  now rewrite seq_nth.
Qed.

(** Every position of every range is visited. *)
Lemma slots_complete (domain_name : string) (d : Domain) (k : nat) :
  In (domain_name, d) domains ->
  fst (range d) + Z.of_nat k <= snd (range d) ->
  In (domain_name, d, Z.of_nat k, fst (range d) + Z.of_nat k) slots.
Proof.
  intros Hdom Hk. unfold slots. apply in_flat_map.
  exists (domain_name, d). split; [exact Hdom|].
  unfold domain_slots. destruct (range d) as [start stop]. cbn [fst snd] in *.
  apply in_map_iff. exists (Z.of_nat k, start + Z.of_nat k). split; [reflexivity|].
  unfold enumerate.
  apply (enumerate_from_nth (py_range start (stop + 1)) 0 k).
  apply py_range_nth_some. lia.
Qed.

Lemma Forall2_In_l {A B : Type} (R : A -> B -> Prop) (l : list A) (l' : list B) (a : A) :
  Forall2 R l l' -> In a l -> exists b, In b l' /\ R a b.
Proof.
  intros H. induction H as [|x y l l' Hxy _ IH]; intros Hin; [contradiction|].
  destruct Hin as [->|Hin].
  - exists y. split; [now left|exact Hxy].
  - destruct (IH Hin) as (b & Hb & Hab). exists b. split; [now right|exact Hab].
Qed.

Lemma prefixes_wrap_once :
  forallb (fun s : string * Domain * Z * Z =>
             let '(_, d, i, _) := s in
             i mod len (prefixes d)
             =? (if i <? len (prefixes d) then i else i - len (prefixes d)))
    slots = true.
Proof. vm_compute. reflexivity. Qed.

Lemma prefixes_shorter_than_ranges :
  forallb (fun nd : string * Domain =>
             (90 <=? len (prefixes (snd nd)))
             && (len (prefixes (snd nd)) <? snd (range (snd nd)) - fst (range (snd nd)) + 1))
    domains = true.
Proof. vm_compute. reflexivity. Qed.

(** X4. Every prefix list is shorter than its domain's range of 100 ids (it
    has 90 to 99 entries), so in every run each domain walks its list once
    in full and starts it again: the row at a position [i] below the length
    of the list has prefix number [i], the row at a later position has
    prefix number [i - length], the same as the row [length] ids before it.
    Every prefix of every list is therefore the prefix of some row of its
    domain. *)
Theorem X4_prefix_lists_wrap_once_and_are_used_in_full
    (t : list Z) (old : list (list pyval)) :
  exists rows,
    csv_file (snd (generate t old)) = header :: rows /\
    Forall2
      (fun s row =>
         let '(domain_name, d, i, idx) := s in
         exists prefix role,
           nth_error row 1 = Some (PStr (prefix ++ " " ++ role)) /\
           nth_error (prefixes d)
             (Z.to_nat (if i <? len (prefixes d) then i else i - len (prefixes d)))
             = Some prefix)
      slots rows /\
    Forall
      (fun nd : string * Domain =>
         90 <= len (prefixes (snd nd))
              < snd (range (snd nd)) - fst (range (snd nd)) + 1 /\
         forall prefix,
           In prefix (prefixes (snd nd)) ->
           exists row role idx,
             In row rows /\ row_id row = Some idx /\
             fst (range (snd nd)) <= idx <= snd (range (snd nd)) /\
             nth_error row 1 = Some (PStr (prefix ++ " " ++ role)))
      domains.
Proof.
  destruct (generate_rows t old) as (rows & t' & E & Hrows).
  exists rows. rewrite E. split; [reflexivity|]. split.
  - apply (Forall2_impl_In slot_row); [|exact Hrows].
    intros [[[domain_name d] i] idx] row Hin Hshape.
    pose proof (slots_check _ _ prefixes_wrap_once Hin) as Hwrap.
    cbn beta iota in Hwrap. apply Z.eqb_eq in Hwrap.
    destruct Hshape as [prefix role ? ? ? ? ? Hprefix _ _ _ _ _ _ _ _].
    exists prefix, role. split; [reflexivity|]. now rewrite <- Hwrap.
  - apply Forall_forall. intros [domain_name d] Hdom. cbn [snd].
    pose proof prefixes_shorter_than_ranges as Hshort.
    rewrite forallb_forall in Hshort. specialize (Hshort _ Hdom). cbn [snd] in Hshort.
    apply andb_prop in Hshort as [H90 Hlt].
    apply Z.leb_le in H90. apply Z.ltb_lt in Hlt.
    split; [lia|]. intros prefix Hprefix.
    apply In_nth_error in Hprefix as (k & Hk).
    assert (Hklen : (k < List.length (prefixes d))%nat)
      by (apply nth_error_Some; congruence).
    unfold len in *.
    assert (Hslot : In (domain_name, d, Z.of_nat k, fst (range d) + Z.of_nat k) slots)
      by (apply slots_complete; [exact Hdom|lia]).
    destruct (Forall2_In_l _ _ _ _ Hrows Hslot) as (row & Hrow & Hshape).
    cbn [slot_row] in Hshape.
    destruct Hshape as [prefix' role ? ? ? ? ? Hprefix' _ _ _ _ _ _ _ _].
    rewrite Z.mod_small, Nat2Z.id, Hk in Hprefix' by (unfold len; lia).
    inversion Hprefix'; subst prefix'.
    eexists _, role, (fst (range d) + Z.of_nat k).
    split; [exact Hrow|]. split; [reflexivity|]. split; [lia|reflexivity].
Qed.

(** ** The law of the genre tags *)

Lemma Q_eqb_eq (p q : Q) : Q_eqb p q = true -> p = q.
Proof.
  destruct p as [a b], q as [c d]. unfold Q_eqb. cbn. intros H.
  apply andb_prop in H as [H1 H2]. apply Z.eqb_eq in H1. apply Pos.eqb_eq in H2.
  now subst.
Qed.

Lemma genre_triples_equally_likely :
  forallb (fun nd : string * Domain =>
             let law := genre_tags (m := dist) (genres (snd nd)) in
             Nat.eqb (List.length (ordered_triples (genres (snd nd)))) 336
             && forallb (fun triple =>
                           Q_eqb (Pr law (String.eqb (join ";" triple))) (1 # 336))
                        (ordered_triples (genres (snd nd))))
    domains = true.
Proof. vm_compute. reflexivity. Qed.

(** X5. For every domain, the three genre tags are an ordered sample: each
    of the 8 * 7 * 6 = 336 ways of taking three genres of the domain at
    different positions, in any order, is the genre_tags cell with
    probability 1/336; the tags are not sorted back into the order of the
    domain's list. *)
Theorem X5_genre_tags_uniform_over_ordered_triples :
  Forall
    (fun nd : string * Domain =>
       List.length (ordered_triples (genres (snd nd))) = 336%nat /\
       Forall (fun triple =>
                 Pr (genre_tags (m := dist) (genres (snd nd))) (String.eqb (join ";" triple))
                 = 1 # 336)
         (ordered_triples (genres (snd nd))))
    domains.
Proof.
  apply Forall_forall. intros nd Hnd.
  pose proof genre_triples_equally_likely as H. rewrite forallb_forall in H.
  specialize (H nd Hnd). cbv zeta in H. apply andb_prop in H as [Hlen Hall].
  split; [now apply Nat.eqb_eq|].
  apply Forall_forall. intros triple Htriple. rewrite forallb_forall in Hall.
  apply Q_eqb_eq, Hall, Htriple.
Qed.

(** ** Sampling from any genre list *)

(** The pool loop takes its items at different positions: the items taken
    and the items left make up the live part of the pool. *)
Lemma yields_sample_pool_split {A : Type} (todo : nat) :
  forall (pool : list A) (n i : Z),
    0 <= i -> i + Z.of_nat todo <= n -> n <= len pool ->
    yields (sample_pool pool n i todo)
      (fun picked =>
         List.length picked = todo /\
         exists left, Permutation (firstn (Z.to_nat (n - i)) pool) (picked ++ left)).
Proof.
  induction todo as [|todo IH]; intros pool n i Hi Hn Hlen.
  - cbn [sample_pool]. apply yields_ret. split; [reflexivity|].
    exists (firstn (Z.to_nat (n - i)) pool). reflexivity.
  - cbn [sample_pool]. unfold len in Hlen.
    eapply yields_bind; [apply yields_randbelow; lia|].
    intros j Hj. cbv beta in Hj.
    eapply yields_bind; [apply yields_getitem; unfold len; lia|].
    intros x Hx. cbv beta in Hx.
    eapply yields_bind; [apply yields_getitem; unfold len; lia|].
    intros y Hy. cbv beta in Hy.
    eapply yields_bind; [apply yields_setitem; unfold len; lia|].
    intros pool' ->.
    eapply yields_bind.
    { apply (IH (list_update pool (Z.to_nat j) y) n (i + 1)); try lia.
      unfold len. rewrite list_update_length. lia. }
    intros rest (Hrl & left & Hperm). apply yields_ret.
    split; [cbn; now rewrite Hrl|].
    exists left. cbn [app].
    replace (Z.to_nat (n - i)) with (S (Z.to_nat (n - (i + 1)))) by lia.
    rewrite (pool_step pool (Z.to_nat (n - (i + 1))) (Z.to_nat j) x y).
    + now apply perm_skip.
    + lia.
    + exact Hx.
    + replace (Z.to_nat (n - (i + 1))) with (Z.to_nat (n - i - 1)) by lia. exact Hy.
Qed.

Lemma yields_sample_split {A : Type} (population : list A) (k : Z) :
  0 <= k <= len population -> len population <= 21 ->
  yields (sample population k)
    (fun picked =>
       List.length picked = Z.to_nat k /\
       exists left, Permutation population (picked ++ left)).
Proof.
  intros Hk Hsmall. unfold sample. cbv zeta.
  destruct (Z.leb_spec 0 k); [|lia].
  destruct (Z.leb_spec k (len population)); [|lia]. cbn [andb negb].
  assert (Hbranch : (len population <=?
            (if 5 <? k then 21 + pow4_ceil (k * 3) else 21)) = true).
  { apply Z.leb_le. destruct (5 <? k); [|assumption].
    unfold pow4_ceil.
    pose proof (Z.pow_nonneg 4 ((Z.log2_up (k * 3) + 1) / 2)). lia. }
  rewrite Hbranch.
  eapply yields_weaken.
  { apply yields_sample_pool_split; try lia. }
  intros picked (Hl & left & Hperm). rewrite Z.sub_0_r in Hperm.
  unfold len in Hperm. rewrite Nat2Z.id, firstn_all in Hperm.
  split; [exact Hl|]. now exists left.
Qed.

(** X6. For any genre list of at most 21 entries, empty or with repeats,
    the genre_tags expression returns on every tape, and no draw or file
    content changes that: it joins min(3, length) entries taken at different
    positions of the list, so the tags and the entries left out make up the
    list.  A list of three genres or fewer is used in full, in some order,
    and an empty list gives the empty string. *)
Theorem X6_genre_tags_of_any_short_list (genres : list string) (w : world) :
  len genres <= 21 ->
  exists picked left t',
    genre_tags (m := run) genres w = (Ok (join ";" picked), set_tape w t') /\
    Z.of_nat (List.length picked) = Z.min 3 (len genres) /\
    Permutation genres (picked ++ left) /\
    Z.of_nat (List.length left) = len genres - Z.min 3 (len genres) /\
    (len genres <= 3 -> Permutation genres picked) /\
    (genres = [] -> join ";" picked = EmptyString).
Proof.
  intros Hsmall. unfold genre_tags. cbn [bind Monad_run]. unfold run_bind.
  destruct (yields_sample_split genres (Z.min 3 (len genres))
              ltac:(unfold len; lia) Hsmall w) as (picked & t' & E & Hlen & left & Hperm).
  rewrite E. exists picked, left, t'.
  pose proof (Permutation_length Hperm) as Hcount. rewrite length_app in Hcount.
  assert (Hleft : Z.of_nat (List.length left) = len genres - Z.min 3 (len genres))
    by (unfold len in *; lia).
  split; [reflexivity|]. split; [unfold len in *; lia|]. split; [exact Hperm|].
  split; [exact Hleft|]. split.
  - intros Hfew. assert (left = []) by (destruct left; [reflexivity|cbn in Hleft; lia]).
    subst left. now rewrite app_nil_r in Hperm.
  - intros ->. cbn in Hlen. destruct picked; [reflexivity|discriminate].
Qed.

(** Two genres: both are used, here in the order second, first. *)
Lemma X6_witness :
  len ["Drone"; "Acid"] <= 21 /\
  exists picked left t',
    genre_tags (m := run) ["Drone"; "Acid"] (start [1] []) =
      (Ok (join ";" picked), set_tape (start [1] []) t') /\
    Z.of_nat (List.length picked) = Z.min 3 (len ["Drone"; "Acid"]) /\
    Permutation ["Drone"; "Acid"] (picked ++ left) /\
    Z.of_nat (List.length left) = len ["Drone"; "Acid"] - Z.min 3 (len ["Drone"; "Acid"]) /\
    (len ["Drone"; "Acid"] <= 3 -> Permutation ["Drone"; "Acid"] picked) /\
    (["Drone"; "Acid"] = [] -> join ";" picked = EmptyString).
Proof.
  split.
  - vm_compute. discriminate.
  - apply X6_genre_tags_of_any_short_list. vm_compute. discriminate.
Defined.









(** ** The key that selects the weirdness range *)

Lemma prefix_spec (sub s : string) :
  String.prefix sub s = true <-> exists rest, s = sub ++ rest.
Proof.
  revert s. induction sub as [|c sub IH]; intros s.
  - split; [intros _; now exists s|intros _; destruct s; reflexivity].
  - destruct s as [|c' s]; cbn.
    + split; [discriminate|intros (rest & Hrest); discriminate].
    + destruct (ascii_dec c c') as [->|Hne].
      * rewrite IH. split; intros (rest & Hrest); exists rest.
        -- now rewrite Hrest.
        -- now inversion Hrest.
      * split; [discriminate|]. intros (rest & Hrest). inversion Hrest. congruence.
Qed.

(** [sub in s] holds exactly when [s] is some text, [sub], and some text. *)
Lemma contains_spec (sub s : string) :
  contains sub s = true <-> exists before after, s = before ++ sub ++ after.
Proof.
  split.
  - induction s as [|c s IH]; cbn [contains]; intros H; apply orb_prop in H as [H|H].
    + apply prefix_spec in H as (rest & ->). now exists EmptyString, rest.
    + discriminate.
    + apply prefix_spec in H as (rest & ->). now exists EmptyString, rest.
    + destruct (IH H) as (before & after & ->). now exists (String c before), after.
  - intros (before & after & ->). induction before as [|c before IH].
    + cbn [append].
      assert (Hp : String.prefix sub (sub ++ after) = true)
        by (apply prefix_spec; now exists after).
      destruct (sub ++ after); cbn [contains]; now rewrite Hp.
    + cbn [append contains]. rewrite IH. apply orb_true_r.
Qed.

(** X8. The weirdness range is chosen by a substring test on the domain's
    key, not by equality: for any key in which "experimental" occurs
    anywhere, the level is drawn uniformly from 6..10, and for any other key
    uniformly from 2..9; the draw never fails. *)
Theorem X8_weirdness_range_follows_substring (domain_name : string) (w : world) :
  exists level t',
    weirdness_level (m := run) domain_name w = (Ok level, set_tape w t') /\
    (((exists before after, domain_name = before ++ "experimental" ++ after) /\
      6 <= level <= 10 /\
      weirdness_level (m := dist) domain_name
        = List.map (fun v => (Ok v, 1 # 5)) (py_range 6 11))
     \/
     (~ (exists before after, domain_name = before ++ "experimental" ++ after) /\
      2 <= level <= 9 /\
      weirdness_level (m := dist) domain_name
        = List.map (fun v => (Ok v, 1 # 8)) (py_range 2 10))).
Proof.
  destruct (yields_weirdness_level domain_name w) as (level & t' & E & Hlevel).
  exists level, t'. split; [exact E|].
  unfold weirdness_level.
  destruct (contains "experimental" domain_name) eqn:Hc.
  - left. split; [now apply contains_spec|]. split; [exact Hlevel|reflexivity].
  - right. split; [|split; [exact Hlevel|reflexivity]].
    intros Hsub. apply contains_spec in Hsub. congruence.
Qed.

(** ** The script on another table *)

Lemma main_is_run_table : main (m := run) = run_table domains.
Proof. reflexivity. Qed.

Lemma py_range_empty (start stop : Z) : stop <= start -> py_range start stop = [].
Proof.
  intros H. unfold py_range. replace (Z.to_nat (stop - start)) with 0%nat by lia.
  reflexivity.
Qed.

Lemma writes_usable_domain (domain_name : string) (d : Domain) :
  usable d = true ->
  writes (domain_rows domain_name d) (Forall2 slot_row (domain_slots domain_name d)).
Proof.
  unfold usable. intros H. apply orb_prop in H as [Hwf|Hempty].
  - now apply writes_domain_rows.
  - apply Z.ltb_lt in Hempty. unfold domain_rows, domain_slots.
    destruct (range d) as [start stop]. cbn [fst snd] in Hempty.
    rewrite py_range_empty by lia. intros w. exists [], (tape w).
    cbn. unfold run_ret. rewrite app_nil_r. split; [now destruct w|constructor].
Qed.

Lemma enumerate_from_snd {A : Type} (l : list A) :
  forall n, List.map snd (enumerate_from n l) = l.
Proof. induction l as [|x l IH]; intros n; cbn; [reflexivity|]. now rewrite IH. Qed.

Lemma table_slots_ids (table : list (string * Domain)) :
  List.map slot_id (table_slots table) = table_ids table.
Proof.
  unfold table_slots, table_ids.
  induction table as [|[domain_name d] table IH]; [reflexivity|].
  cbn [flat_map]. rewrite map_app, IH. f_equal.
  unfold domain_slots. cbn [snd]. destruct (range d) as [start stop]. cbn [fst snd].
  rewrite map_map. unfold enumerate.
  rewrite <- (enumerate_from_snd (py_range start (stop + 1)) 0) at 2.
  apply map_ext. now intros [i idx].
Qed.

Lemma slot_row_outline (s : string * Domain * Z * Z) (row : list pyval) :
  slot_row s row -> slot_outline s row.
Proof.
  destruct s as [[[domain_name d] i] idx]. cbn [slot_row slot_outline].
  intros [prefix role desc synth feature picked weird H1 H2 _ H4 H5 H6 H7 H8 H9].
  now constructor.
Qed.

Lemma rows_outlines (table : list (string * Domain)) (rows : list (list pyval)) :
  Forall2 slot_row (table_slots table) rows ->
  Forall2 slot_outline (table_slots table) rows.
Proof.
  apply Forall2_impl_In. intros s row _. apply slot_row_outline.
Qed.

Lemma rows_ids (table : list (string * Domain)) (rows : list (list pyval)) :
  Forall2 slot_row (table_slots table) rows ->
  List.map row_id rows = List.map Some (table_ids table).
Proof.
  intros H. rewrite <- table_slots_ids, map_map.
  apply (Forall2_map_eq _ _ slot_row); [|exact H].
  intros s row. apply slot_row_id.
Qed.

(** X9. The loops take the table as it comes.  On any table each of whose
    domains either has non-empty prefix and synthesis-type lists and at most
    21 genres, or has an empty range, the run ends normally on every tape:
    after the header it has written one row per id of each range, in table
    order, whether or not the ranges are disjoint, ordered or 1000 ids in
    all, and it prints the same completion line.  Each row has the id, name,
    synthesis type, feature, genre tags and weirdness of its position; its
    description is left open here. *)
Theorem X9_any_usable_table_is_written_in_table_order
    (table : list (string * Domain)) (t : list Z) (old : list (list pyval)) :
  forallb (fun nd => usable (snd nd)) table = true ->
  exists rows t',
    run_table table (start t old) =
      (Ok tt, {| tape := t'; csv_file := header :: rows; console := [completion_message] |})
    /\ Forall2 slot_outline (table_slots table) rows
    /\ List.map row_id rows = List.map Some (table_ids table).
Proof.
  intros Husable. rewrite forallb_forall in Husable.
  assert (Hloop : writes (for_each table (fun '(domain_name, domain) =>
                                            domain_rows domain_name domain))
                    (Forall2 slot_row (table_slots table))).
  { apply (writes_for_each (fun '(domain_name, d) => domain_slots domain_name d)).
    intros [domain_name d] Hin. apply writes_usable_domain.
    exact (Husable _ Hin). }
  unfold run_table. revert Hloop.
  generalize (for_each table (fun '(domain_name, domain) =>
                                domain_rows domain_name domain)).
  intros loop Hloop.
  destruct (Hloop {| tape := t; csv_file := [header]; console := [] |})
    as (rows & t' & E & Hrows).
  exists rows, t'. split; [|split; [now apply rows_outlines|now apply rows_ids]].
  cbv [bind Monad_run run_bind open_writer writerow print Output_run run_open_writer
       run_writerow run_print start tape csv_file console app].
  cbv [tape csv_file console app] in E. rewrite E. reflexivity.
Qed.

(** Two overlapping ranges out of order around a domain without ids or
    lists. *)
Lemma X9_witness :
  forallb (fun nd => usable (snd nd)) scrambled_table = true /\
  table_ids scrambled_table = [5; 6; 4; 5] /\
  exists rows t',
    run_table scrambled_table (start [] []) =
      (Ok tt, {| tape := t'; csv_file := header :: rows; console := [completion_message] |})
    /\ Forall2 slot_outline (table_slots scrambled_table) rows
    /\ List.map row_id rows = List.map Some (table_ids scrambled_table).
Proof.
  split; [reflexivity|]. split; [reflexivity|].
  apply X9_any_usable_table_is_written_in_table_order. reflexivity.
Defined.

(** ** A domain with an empty list *)

Lemma fails_raise {A : Type} (e : exn) : fails (raise e : run A) e.
Proof. intros w. exists (tape w). cbn. unfold run_raise. now rewrite set_tape_same. Qed.

Lemma fails_bind_now {A B : Type} (c : run A) (k : A -> run B) (e : exn) :
  fails c e -> fails (bind c k) e.
Proof.
  intros Hc w. cbn. unfold run_bind. destruct (Hc w) as (t' & ->). now exists t'.
Qed.

Lemma fails_bind_later {A B : Type} (c : run A) (k : A -> run B) (mid : A -> Prop)
    (e : exn) :
  yields c mid -> (forall a, mid a -> fails (k a) e) -> fails (bind c k) e.
Proof.
  intros Hc Hk w. cbn. unfold run_bind.
  destruct (Hc w) as (a & t1 & -> & Ha).
  destruct (Hk a Ha (set_tape w t1)) as (t2 & ->). now exists t2.
Qed.

Lemma fails_py_mod_zero (a : Z) : fails (py_mod a 0) ZeroDivisionError.
Proof. unfold py_mod. cbn [Z.eqb]. apply fails_raise. Qed.

(** The modulo by the length of an empty list stops the row. *)
Lemma fails_assemble_row (domain_name : string) (prefixes synth_types genres : list string)
    (i idx : Z) :
  prefixes = [] \/ synth_types = [] ->
  fails (assemble_row domain_name prefixes synth_types genres i idx) ZeroDivisionError.
Proof.
  intros H. unfold assemble_row. destruct prefixes as [|p ps].
  - apply fails_bind_now. apply fails_py_mod_zero.
  - destruct H as [H | ->]; [discriminate|].
    assert (Hp : 0 < len (p :: ps)) by (apply len_pos; discriminate).
    eapply fails_bind_later; [apply yields_py_mod; lia|]. intros q ->.
    eapply fails_bind_later.
    { apply yields_getitem. apply Z.mod_pos_bound; lia. }
    intros prefix _.
    eapply fails_bind_later; [apply yields_role_word|]. intros role _.
    eapply fails_bind_later; [apply yields_generate_description|]. intros desc _.
    apply fails_bind_now. apply fails_py_mod_zero.
Qed.

Lemma fails_domain_rows (domain_name : string) (d : Domain) :
  fst (range d) <= snd (range d) ->
  prefixes d = [] \/ synthesis_types d = [] ->
  fails (domain_rows domain_name d) ZeroDivisionError.
Proof.
  intros Hrange Hempty. unfold domain_rows.
  destruct (range d) as [start stop]. cbn [fst snd] in Hrange.
  destruct (py_range start (stop + 1)) as [|idx ids] eqn:E.
  - apply (f_equal (@List.length _)) in E. rewrite py_range_length in E. cbn in E. lia.
  - unfold enumerate. cbn [enumerate_from for_each].
    apply fails_bind_now. apply fails_bind_now. now apply fails_assemble_row.
Qed.

Lemma aborts_for_each {A B : Type} (items : A -> list B) (slot : B -> list pyval -> Prop)
    (body : A -> run unit) (before : list A) (x : A) (after : list A) (e : exn) :
  (forall y, In y before -> writes (body y) (Forall2 slot (items y))) ->
  fails (body x) e ->
  forall w, exists rows t',
    for_each (before ++ x :: after)%list body w =
      (Raised e,
       {| tape := t'; csv_file := (csv_file w ++ rows)%list; console := console w |})
    /\ Forall2 slot (flat_map items before) rows.
Proof.
  intros Hbefore Hx. induction before as [|y before IH]; intros w.
  - cbn. unfold run_bind. destruct (Hx w) as (t' & ->).
    exists [], t'. rewrite app_nil_r. split; [reflexivity|constructor].
  - cbn. unfold run_bind.
    destruct (Hbefore y (or_introl eq_refl) w) as (rows1 & t1 & -> & H1).
    destruct (IH (fun z Hz => Hbefore z (or_intror Hz))
                {| tape := t1; csv_file := (csv_file w ++ rows1)%list; console := console w |})
      as (rows2 & t2 & E & H2).
    cbn in E. rewrite E.
    exists (rows1 ++ rows2)%list, t2. cbn. rewrite app_assoc.
    split; [reflexivity|]. now apply Forall2_app.
Qed.

(** X10. A domain with at least one id whose prefix list or synthesis-type
    list is empty stops the run with ZeroDivisionError at its first row (the
    index [i % len(...)] divides by zero).  Nothing is caught: the file
    keeps the header and the rows of the domains before it, none of the
    stopped domain or of those after it, and the completion line is not
    printed.  Each row kept has the id, name, synthesis type, feature, genre
    tags and weirdness of its position; its description is left open
    here. *)
Theorem X10_empty_list_aborts_leaving_earlier_rows
    (before : list (string * Domain)) (domain_name : string) (d : Domain)
    (after : list (string * Domain)) (t : list Z) (old : list (list pyval)) :
  forallb (fun nd => usable (snd nd)) before = true ->
  fst (range d) <= snd (range d) ->
  prefixes d = [] \/ synthesis_types d = [] ->
  exists rows t',
    run_table (before ++ (domain_name, d) :: after)%list (start t old) =
      (Raised ZeroDivisionError,
       {| tape := t'; csv_file := header :: rows; console := [] |})
    /\ Forall2 slot_outline (table_slots before) rows
    /\ List.map row_id rows = List.map Some (table_ids before).
Proof.
  intros Husable Hrange Hempty. rewrite forallb_forall in Husable.
  assert (Hloop : forall w, exists rows t',
             for_each (before ++ (domain_name, d) :: after)%list
               (fun '(domain_name, domain) => domain_rows (m := run) domain_name domain) w =
               (Raised ZeroDivisionError,
                {| tape := t'; csv_file := (csv_file w ++ rows)%list;
                   console := console w |})
             /\ Forall2 slot_row (table_slots before) rows).
  { apply (aborts_for_each (fun '(domain_name, d) => domain_slots domain_name d) slot_row).
    - intros [n d'] Hin. apply writes_usable_domain. exact (Husable _ Hin).
    - now apply fails_domain_rows. }
  unfold run_table. revert Hloop.
  generalize (for_each (before ++ (domain_name, d) :: after)%list
                (fun '(domain_name, domain) => domain_rows (m := run) domain_name domain)).
  intros loop Hloop.
  destruct (Hloop {| tape := t; csv_file := [header]; console := [] |})
    as (rows & t' & E & Hrows).
  exists rows, t'. split; [|split; [now apply rows_outlines|now apply rows_ids]].
  cbv [bind Monad_run run_bind open_writer writerow print Output_run run_open_writer
       run_writerow run_print start tape csv_file console app].
  cbv [tape csv_file console app] in E. rewrite E. reflexivity.
Qed.

(** A domain without synthesis types after a sound one: the two rows of the
    first stay in the file. *)
Lemma X10_witness :
  forallb (fun nd => usable (snd nd)) [("bells", bell_domain)] = true /\
  fst (range typeless_domain) <= snd (range typeless_domain) /\
  (prefixes typeless_domain = [] \/ synthesis_types typeless_domain = []) /\
  table_ids [("bells", bell_domain)] = [1; 2] /\
  exists rows t',
    run_table ([("bells", bell_domain)] ++ ("gongs", typeless_domain) :: [])%list
      (start [] []) =
      (Raised ZeroDivisionError,
       {| tape := t'; csv_file := header :: rows; console := [] |})
    /\ Forall2 slot_outline (table_slots [("bells", bell_domain)]) rows
    /\ List.map row_id rows = List.map Some (table_ids [("bells", bell_domain)]).
Proof.
  split; [reflexivity|]. split; [vm_compute; discriminate|].
  split; [right; reflexivity|]. split; [reflexivity|].
  apply X10_empty_list_aborts_leaving_earlier_rows.
  - reflexivity.
  - vm_compute. discriminate.
  - right. reflexivity.
Defined.

(** ** How many draws a row takes *)

Lemma next_raw_skipn (t : list Z) : snd (next_raw t) = skipn 1 t.
Proof. destruct t; reflexivity. Qed.

Lemma draws_ret {A : Type} (a : A) (post : A -> nat -> Prop) :
  post a 0%nat -> draws (ret a) post.
Proof.
  intros Ha w. exists a, 0%nat. cbn. unfold run_ret. now rewrite set_tape_same.
Qed.

Lemma draws_bind {A B : Type} (c : run A) (k : A -> run B)
    (mid : A -> nat -> Prop) (post : B -> nat -> Prop) :
  draws c mid ->
  (forall a n, mid a n -> draws (k a) (fun b n' => post b (n + n')%nat)) ->
  draws (bind c k) post.
Proof.
  intros Hc Hk w. cbn. unfold run_bind.
  destruct (Hc w) as (a & n & -> & Ha).
  destruct (Hk a n Ha (set_tape w (skipn n (tape w)))) as (b & n' & -> & Hb).
  exists b, (n + n')%nat. split; [|exact Hb].
  cbn [set_tape tape csv_file console]. now rewrite skipn_skipn, Nat.add_comm.
Qed.

Lemma draws_weaken {A : Type} (c : run A) (post post' : A -> nat -> Prop) :
  draws c post -> (forall a n, post a n -> post' a n) -> draws c post'.
Proof.
  intros Hc Himp w. destruct (Hc w) as (a & n & E & Ha). exists a, n. auto.
Qed.

Lemma draws_random_gt (t : Q) : draws (random_gt t) (fun _ n => n = 1%nat).
Proof.
  intros w. cbn [random_gt Random_run]. unfold run_random_gt.
  pose proof (next_raw_skipn (tape w)) as Hskip.
  destruct (next_raw (tape w)) as [r t']. cbn [snd] in Hskip. subst t'.
  exists (Qgt_bool (unit_float r) t), 1%nat. split; reflexivity.
Qed.

Lemma draws_randbelow (n : Z) :
  0 < n -> draws (randbelow n) (fun j k => 0 <= j < n /\ k = 1%nat).
Proof.
  intros Hn w. cbn [randbelow Random_run]. unfold run_randbelow.
  destruct (Z.leb_spec n 0); [lia|].
  pose proof (next_raw_skipn (tape w)) as Hskip.
  destruct (next_raw (tape w)) as [r t']. cbn [snd] in Hskip. subst t'.
  exists (r mod n), 1%nat. split; [reflexivity|]. split; [|reflexivity].
  now apply Z.mod_pos_bound.
Qed.

Lemma draws_py_mod (a b : Z) :
  b <> 0 -> draws (py_mod a b) (fun r n => r = a mod b /\ n = 0%nat).
Proof.
  intros Hb. unfold py_mod. destruct (Z.eqb_spec b 0); [contradiction|].
  now apply draws_ret.
Qed.

Lemma draws_getitem {A : Type} (l : list A) (k : Z) :
  0 <= k < len l ->
  draws (getitem l k) (fun x n => nth_error l (Z.to_nat k) = Some x /\ n = 0%nat).
Proof.
  intros Hk. unfold getitem. cbv zeta.
  destruct (Z.ltb_spec k 0); [lia|].
  destruct (Z.ltb_spec k 0); [lia|].
  destruct (nth_error l (Z.to_nat k)) as [x|] eqn:E.
  - now apply draws_ret.
  - apply nth_error_None in E. unfold len in Hk. lia.
Qed.

Lemma draws_setitem {A : Type} (l : list A) (k : Z) (x : A) :
  0 <= k < len l ->
  draws (setitem l k x) (fun l' n => l' = list_update l (Z.to_nat k) x /\ n = 0%nat).
Proof.
  intros Hk. unfold setitem. cbv zeta.
  destruct (Z.ltb_spec k 0); [lia|].
  destruct (Z.ltb_spec k 0); [lia|].
  destruct (Z.leb_spec (len l) k); [lia|]. cbn [orb].
  now apply draws_ret.
Qed.

Lemma draws_choice {A : Type} (seq : list A) :
  seq <> [] -> draws (choice seq) (fun x n => In x seq /\ n = 1%nat).
Proof.
  intros Hne. unfold choice. pose proof (len_pos seq Hne) as Hpos.
  destruct (Z.eqb_spec (len seq) 0); [lia|].
  eapply draws_bind; [now apply draws_randbelow|].
  intros j k1 [Hj ->]. eapply draws_weaken; [now apply draws_getitem|].
  intros x k2 [Hx ->]. split; [eapply nth_error_In, Hx|reflexivity].
Qed.

Lemma draws_randint (a b : Z) :
  a <= b -> draws (randint a b) (fun z n => a <= z <= b /\ n = 1%nat).
Proof.
  intros Hab. unfold randint. cbv zeta.
  destruct (Z.ltb_spec 0 (b + 1 - a)); [|lia].
  eapply draws_bind; [apply draws_randbelow; lia|].
  intros j k1 [Hj ->]. apply draws_ret. split; [lia|reflexivity].
Qed.

Lemma draws_sample_pool {A : Type} (todo : nat) :
  forall (pool : list A) (n i : Z),
    0 <= i -> i + Z.of_nat todo <= n -> n <= len pool ->
    draws (sample_pool pool n i todo)
      (fun picked k => List.length picked = todo /\ k = todo).
Proof.
  induction todo as [|todo IH]; intros pool n i Hi Hn Hlen.
  - cbn [sample_pool]. apply draws_ret. split; reflexivity.
  - cbn [sample_pool]. unfold len in Hlen.
    eapply draws_bind; [apply draws_randbelow; lia|]. intros j k1 [Hj ->].
    eapply draws_bind; [apply draws_getitem; unfold len; lia|]. intros x k2 [Hx ->].
    eapply draws_bind; [apply draws_getitem; unfold len; lia|]. intros y k3 [Hy ->].
    eapply draws_bind; [apply draws_setitem; unfold len; lia|]. intros pool' k4 [-> ->].
    eapply draws_bind.
    { apply (IH (list_update pool (Z.to_nat j) y) n (i + 1)); try lia.
      unfold len. rewrite list_update_length. lia. }
    intros rest k5 [Hrest ->]. apply draws_ret. cbn. split; lia.
Qed.

Lemma draws_sample {A : Type} (population : list A) (k : Z) :
  0 <= k <= len population -> len population <= 21 ->
  draws (sample population k) (fun picked n => n = Z.to_nat k).
Proof.
  intros Hk Hsmall. unfold sample. cbv zeta.
  destruct (Z.leb_spec 0 k); [|lia].
  destruct (Z.leb_spec k (len population)); [|lia]. cbn [andb negb].
  assert (Hbranch : (len population <=?
            (if 5 <? k then 21 + pow4_ceil (k * 3) else 21)) = true).
  { apply Z.leb_le. destruct (5 <? k); [|assumption].
    unfold pow4_ceil.
    pose proof (Z.pow_nonneg 4 ((Z.log2_up (k * 3) + 1) / 2)). lia. }
  rewrite Hbranch.
  eapply draws_weaken; [apply draws_sample_pool; lia|].
  intros picked n [_ ->]. reflexivity.
Qed.

(** The conditional expression draws a role word only in its [else]
    branch. *)
Lemma draws_role_word :
  draws role_word
    (fun role n => (role = "Synth" /\ n = 1%nat) \/ (In role role_words /\ n = 2%nat)).
Proof.
  unfold role_word. eapply draws_bind; [apply draws_random_gt|].
  intros [|] n ->.
  - apply draws_ret. left. split; reflexivity.
  - eapply draws_weaken; [apply draws_choice; discriminate|].
    intros role n [Hrole ->]. right. split; [exact Hrole|reflexivity].
Qed.

Lemma draws_genre_tags (genres : list string) :
  len genres <= 21 ->
  draws (genre_tags genres) (fun _ n => n = Z.to_nat (Z.min 3 (len genres))).
Proof.
  intros Hsmall. unfold genre_tags.
  eapply draws_bind; [apply draws_sample; [unfold len; lia|exact Hsmall]|].
  intros picked n ->. apply draws_ret. lia.
Qed.

Lemma draws_weirdness_level (domain_name : string) :
  draws (weirdness_level domain_name) (fun _ n => n = 1%nat).
Proof.
  unfold weirdness_level.
  destruct (negb (contains "experimental" domain_name));
    (eapply draws_weaken; [apply draws_randint; lia|]); now intros z n [_ ->].
Qed.

(** X11. A row takes its draws in a fixed order and number: one float,
    then a role word only if the float did not exceed 0.5, one template, one
    feature, one position per genre tag and one weirdness level.  With the
    3 tags every domain of the script has, a row named "... Synth" takes 7
    draws off the generator and any other row 8. *)
Theorem X11_a_row_takes_seven_or_eight_draws
    (domain_name : string) (d : Domain) (i idx : Z) (w : world) :
  well_formed d = true ->
  exists row prefix role n,
    assemble_row (m := run) domain_name (prefixes d) (synthesis_types d) (genres d) i idx w
      = (Ok row, set_tape w (skipn n (tape w))) /\
    nth_error row 1 = Some (PStr (prefix ++ " " ++ role)) /\
    ((role = "Synth" /\ n = (4 + Z.to_nat (Z.min 3 (len (genres d))))%nat) \/
     (In role role_words /\ n = (5 + Z.to_nat (Z.min 3 (len (genres d))))%nat)) /\
    Forall (fun nd : string * Domain => Z.min 3 (len (genres (snd nd))) = 3) domains.
Proof.
  intros Hwf. apply well_formed_spec in Hwf as (Hp & Hs & Hg).
  pose proof (len_pos _ Hp) as Hp'. pose proof (len_pos _ Hs) as Hs'.
  assert (Hrow : draws (assemble_row (m := run) domain_name (prefixes d)
                          (synthesis_types d) (genres d) i idx)
                   (fun row n => exists prefix role,
                      nth_error row 1 = Some (PStr (prefix ++ " " ++ role)) /\
                      ((role = "Synth" /\
                        n = (4 + Z.to_nat (Z.min 3 (len (genres d))))%nat) \/
                       (In role role_words /\
                        n = (5 + Z.to_nat (Z.min 3 (len (genres d))))%nat)))).
  { unfold assemble_row.
    eapply draws_bind; [apply draws_py_mod; lia|]. intros p n0 [-> ->].
    eapply draws_bind; [apply draws_getitem, Z.mod_pos_bound; lia|].
    intros prefix n1 [_ ->].
    eapply draws_bind; [apply draws_role_word|]. intros role n2 Hrole.
    eapply draws_bind; [apply draws_choice; discriminate|]. intros desc n3 [_ ->].
    eapply draws_bind; [apply draws_py_mod; lia|]. intros s n4 [-> ->].
    eapply draws_bind; [apply draws_getitem, Z.mod_pos_bound; lia|].
    intros synth n5 [_ ->].
    eapply draws_bind; [apply draws_choice; discriminate|]. intros feature n6 [_ ->].
    eapply draws_bind; [now apply draws_genre_tags|]. intros genre n7 ->.
    eapply draws_bind; [apply draws_weirdness_level|]. intros weird n8 ->.
    apply draws_ret.
    exists prefix, role. split; [reflexivity|].
    destruct Hrole as [[-> ->]|[Hrole ->]]; [left|right]; (split; [auto|lia]). }
  destruct (Hrow w) as (row & n & E & prefix & role & Hname & Hn).
  exists row, prefix, role, n. split; [exact E|]. split; [exact Hname|].
  split; [exact Hn|].
  unfold domains. repeat (constructor; [reflexivity|]). constructor.
Qed.

(** The first row of the script on the all-zero tape. *)
Lemma X11_witness :
  well_formed computer_history = true /\
  exists row prefix role n,
    assemble_row (m := run) "computer_history" (prefixes computer_history)
      (synthesis_types computer_history) (genres computer_history) 0 1 (start [] [])
      = (Ok row, set_tape (start [] []) (skipn n (tape (start [] [])))) /\
    nth_error row 1 = Some (PStr (prefix ++ " " ++ role)) /\
    ((role = "Synth" /\
      n = (4 + Z.to_nat (Z.min 3 (len (genres computer_history))))%nat) \/
     (In role role_words /\
      n = (5 + Z.to_nat (Z.min 3 (len (genres computer_history))))%nat)) /\
    Forall (fun nd : string * Domain => Z.min 3 (len (genres (snd nd))) = 3) domains.
Proof.
  split; [reflexivity|].
  apply X11_a_row_takes_seven_or_eight_draws. reflexivity.
Defined.

(** ** What the file text determines *)

Lemma length_append (a b : string) :
  String.length (a ++ b) = (String.length a + String.length b)%nat.
Proof. induction a as [|c a IH]; cbn; [reflexivity|]. now rewrite IH. Qed.

Lemma double_quotes_length (s : string) :
  (String.length s <= String.length (double_quotes s))%nat.
Proof.
  induction s as [|c s IH]; cbn; [lia|].
  destruct (Ascii.eqb c quotechar); cbn; lia.
Qed.

(** X12. The text [csv.writer] leaves can always be read back: for any
    rows handed to [writerow], whatever their cells hold (commas, quotes,
    line breaks, nothing), a standard reader returns the text of every cell,
    row by row, so two files are the same only if all their cells are.  A
    cell is written exactly as it is if and only if it holds no comma, no
    double quote, no CR and no LF. *)
Theorem X12_written_text_reads_back_cell_by_cell (rows rows' : list (list pyval)) :
  read_file (file_text rows) = Some (List.map (List.map str) rows)
  /\ (file_text rows = file_text rows' ->
      List.map (List.map str) rows = List.map (List.map str) rows')
  /\ (forall s, quote_field s = s <-> needs_quotes s = false).
Proof.
  split; [apply read_file_text|]. split.
  - intros Hsame.
    pose proof (read_file_text rows) as H1. pose proof (read_file_text rows') as H2.
    rewrite Hsame, H2 in H1. now inversion H1.
  - intros s. split.
    + intros Hq. unfold quote_field in Hq. destruct (needs_quotes s); [|reflexivity].
      apply (f_equal String.length) in Hq. cbn in Hq.
      rewrite length_append in Hq. cbn in Hq.
      pose proof (double_quotes_length s). lia.
    + intros Hplain. unfold quote_field. now rewrite Hplain.
Qed.
